(** * DAP library cleaner: classification, health checks and deletion plan

    A shallow embedding of [src/main.py] (the rule tables, [classify_file],
    [file_health_checks], the scan loop of [main] and the construction of
    [delete_list]) together with the properties the specification states
    about them.

    Modelling choices:
    - a [str] is the list of its code points, so that [ord], [len],
      slicing and the non-ASCII test are those of Python;
    - [str.lower] is a parameter of the classifier: the program needs only
      its behaviour on 7-bit text, stated as [lower_on_ascii];
    - a [Path] is the tuple of its components, with [name], [suffix], [stem]
      and [relative_to] as pathlib computes them;
    - a statement that can raise returns a [result]; the mutable list
      [reasons] and the [defaultdict] [buckets] are threaded explicitly;
    - the file system is a record of the answers the program asks of it,
      each of which may be an exception. *)

From Stdlib Require Import ZArith NArith Lia Ascii String DecimalString.
From stdpp Require Import base option list gmap.

Local Open Scope Z_scope.

(** ** Python strings

    A Python [str] is a sequence of Unicode code points; [ord ch] is the
    code point itself. *)

Module PyStr.

Definition pystr : Type := list N.

(** A string literal of the source whose characters are all below 256. *)
Definition lit (s : string) : pystr :=
  List.map N_of_ascii (list_ascii_of_string s).

(** [len(s)] *)
Definition len {A : Type} (s : list A) : Z := Z.of_nat (length s).

(** [str(n)] for an [int]. *)
Definition str_of_int (n : Z) : pystr :=
  lit (NilZero.string_of_int (Z.to_int n)).

(** [s.startswith(pre)] *)
Fixpoint startswith (s pre : pystr) {struct pre} : bool :=
  match pre, s with
  | [], _ => true
  | _ :: _, [] => false
  | c :: pre', d :: s' => N.eqb c d && startswith s' pre'
  end.

(** [sub in s] for two strings: substring search. *)
Fixpoint contains (sub s : pystr) : bool :=
  startswith s sub ||
  match s with
  | [] => false
  | _ :: s' => contains sub s'
  end.

(** [s.rfind(c)] for a one-character needle: the highest index holding
    [c], or [-1]. *)
Fixpoint rfind_from (c : N) (s : pystr) (i acc : Z) : Z :=
  match s with
  | [] => acc
  | d :: s' => rfind_from c s' (i + 1) (if N.eqb d c then i else acc)
  end.

Definition rfind (c : N) (s : pystr) : Z := rfind_from c s 0 (-1).

(** [s[i:]] and [s[:i]] for [0 <= i]. *)
Definition slice_from (i : Z) (s : pystr) : pystr := drop (Z.to_nat i) s.
Definition slice_to (i : Z) (s : pystr) : pystr := take (Z.to_nat i) s.

(** [ch.isspace()]: the code points CPython treats as whitespace. *)
Definition isspace (c : N) : bool :=
  ((9 <=? c) && (c <=? 13) || (28 <=? c) && (c <=? 32) ||
   (c =? 133) || (c =? 160) || (c =? 5760) ||
   (8192 <=? c) && (c <=? 8202) || (c =? 8232) || (c =? 8233) ||
   (c =? 8239) || (c =? 8287) || (c =? 12288))%N.

Fixpoint lstrip (s : pystr) : pystr :=
  match s with
  | [] => []
  | c :: s' => if isspace c then lstrip s' else s
  end.

(** [s.strip()] *)
Definition strip (s : pystr) : pystr := rev (lstrip (rev (lstrip s))).

(** [a or b] on strings: the empty string is falsy. *)
Definition str_or (a b : pystr) : pystr :=
  match a with [] => b | _ :: _ => a end.

(** [x in S] for a set of strings. *)
Definition in_set (x : pystr) (S : list pystr) : bool := bool_decide (x ∈ S).

(** [sep.join(parts)] *)
Fixpoint join (sep : pystr) (parts : list pystr) : pystr :=
  match parts with
  | [] => []
  | [x] => x
  | x :: rest => x ++ sep ++ join sep rest
  end.

(** What [str.lower] does on a string of 7-bit characters: [A]-[Z] move
    to [a]-[z], everything else stays. *)
Definition ascii_lower_char (c : N) : N :=
  (if (65 <=? c) && (c <=? 90) then c + 32 else c)%N.

Definition ascii_lower (s : pystr) : pystr := List.map ascii_lower_char s.

Definition is_ascii (s : pystr) : bool := forallb (fun c => (c <=? 127)%N) s.

End PyStr.

Export PyStr.
Arguments lit s%_string.

(** ** Exceptions *)

Inductive exn : Type :=
| ValueError
| OSError.

Inductive result (A : Type) : Type :=
| Ok (a : A)
| Raise (e : exn).

Arguments Ok {A} a.
Arguments Raise {A} e.

(** Sequencing: an exception raised by the first statement propagates. The
    notation [x ← m; k] is stdpp's, through [MBind]. *)
#[global] Instance result_bind : MBind result := fun A B k m =>
  match m with
  | Ok a => k a
  | Raise e => Raise e
  end.

#[global] Instance result_ret : MRet result := fun A a => Ok a.

(** ** pathlib

    A path is the tuple of its components below the anchor; only pure paths
    under one common anchor occur in the program. The properties follow
    CPython's [PurePath] (POSIX flavour). *)

Definition Path : Type := list pystr.

(** [p.name]: the final component, or [''] when there is none. *)
Definition name (p : Path) : pystr := default [] (last p).

Definition DOT : N := 46.

(** [p.suffix]:
    [i = name.rfind('.'); name[i:] if 0 < i < len(name) - 1 else ''] *)
Definition suffix (p : Path) : pystr :=
  let nm := name p in
  let i := rfind DOT nm in
  if (0 <? i) && (i <? len nm - 1) then slice_from i nm else [].

(** [p.stem]:
    [i = name.rfind('.'); name[:i] if 0 < i < len(name) - 1 else name] *)
Definition stem (p : Path) : pystr :=
  let nm := name p in
  let i := rfind DOT nm in
  if (0 <? i) && (i <? len nm - 1) then slice_to i nm else nm.

(** [p.relative_to(root)] raises [ValueError] unless [root]'s components
    are a prefix of [p]'s. *)
Fixpoint relative_to (p root : Path) {struct root} : result Path :=
  match root, p with
  | [], _ => Ok p
  | _ :: _, [] => Raise ValueError
  | r :: root', c :: p' =>
      if bool_decide (c = r) then relative_to p' root' else Raise ValueError
  end.

(** [str(p)] for a relative path. *)
Definition str_path (p : Path) : pystr :=
  match p with
  | [] => lit "."
  | _ :: _ => join (lit "/") p
  end.

(** ** Configuration constants *)

Definition AUDIO_EXTS : list pystr :=
  [lit ".flac"; lit ".mp3"; lit ".wav"; lit ".aac"; lit ".m4a"; lit ".ogg";
   lit ".opus"; lit ".wma"; lit ".ape"; lit ".aiff"].

Definition IMAGE_EXTS : list pystr :=
  [lit ".jpg"; lit ".jpeg"; lit ".png"; lit ".bmp"; lit ".webp"].

Definition JUNK_EXTS : list pystr :=
  [lit ".m3u"; lit ".m3u8"; lit ".pls"; lit ".wpl"; lit ".xspf";
   lit ".db"; lit ".ini"; lit ".log"; lit ".tmp"; lit ".bak";
   lit ".sfk"; lit ".asd"; lit ".pkf"; lit ".xml"; lit ".json"].

Definition POTENTIALLY_PROBLEMATIC_EXTS : list pystr :=
  [lit ".cue"; lit ".nfo"; lit ".txt"; lit ".rtf"; lit ".pdf"; lit ".md"].

Definition JUNK_FILENAMES : list pystr :=
  [lit "thumbs.db"; lit "desktop.ini"; lit ".ds_store"].

Definition JUNK_DIRNAMES : list pystr :=
  [lit ".spotlight-v100"; lit ".trashes"; lit "__macosx"].

Definition APPLEDOUBLE_PREFIX : pystr := lit "._".

Definition DEPTH_LIMIT : Z := 6.
Definition REL_PATH_LEN_LIMIT : Z := 180.
Definition MAX_FILENAME_LEN : Z := 120.

(** [BAD_CHARS_PATTERN.search(s)]: the pattern is one character class (the
    nine symbols, by code point: less-than, greater-than, colon, double
    quote, slash, backslash, bar, question mark, star; and the range
    0x00-0x1F), so the search succeeds when some character of [s] is in it. *)
Definition bad_char (c : N) : bool :=
  bool_decide (c ∈ [60; 62; 58; 34; 47; 92; 124; 63; 42]%N) || (c <=? 31)%N.

Definition BAD_CHARS_PATTERN_search (s : pystr) : bool := existsb bad_char s.

Definition PREFERRED_COVER_NAMES : list pystr :=
  [lit "cover"; lit "folder"; lit "front"; lit "album"].

(** ** Types *)

Record Finding : Type := mkFinding { path : Path; reason : pystr }.

(** ** Detectors *)

Definition has_non_ascii (s : pystr) : bool :=
  existsb (fun ch => (127 <? ch)%N) s.

Section Classifier.

(** [str.lower] is Unicode case mapping; the program only relies on what
    it does to 7-bit text. *)
Variable lower : pystr -> pystr.

Definition lower_on_ascii : Prop :=
  forall s, is_ascii s = true -> lower s = ascii_lower s.

Definition classify_file (p : Path) : pystr * pystr :=
  let name_lower := lower (name p) in
  let ext_lower := lower (suffix p) in
  if startswith (name p) APPLEDOUBLE_PREFIX then
    (lit "junk", lit "macOS AppleDouble sidecar (._*)")
  else if in_set name_lower JUNK_FILENAMES then
    (lit "junk", lit "junk metadata file (" ++ name p ++ lit ")")
  else if in_set ext_lower AUDIO_EXTS then
    (lit "allowed", lit "audio file")
  else if in_set ext_lower IMAGE_EXTS then
    let stem := lower (stem p) in
    if negb (in_set stem PREFERRED_COVER_NAMES)
       && negb (contains (lit "cover") stem)
       && negb (contains (lit "folder") stem)
    then
      (lit "maybe",
       lit "image file (artwork) but name not cover/folder/front (album art pickup may suffer)")
    else (lit "allowed", lit "cover art image")
  else if in_set ext_lower JUNK_EXTS then
    (lit "junk", lit "junk sidecar/playlist/db/log (" ++ ext_lower ++ lit ")")
  else if in_set ext_lower POTENTIALLY_PROBLEMATIC_EXTS then
    (lit "maybe",
     lit "non-audio sidecar (" ++ ext_lower ++ lit ") " ++ [8212%N]
       ++ lit " sometimes confuses DAP scans")
  else
    (lit "unknown",
     lit "unknown file type (" ++ str_or ext_lower (lit "no extension") ++ lit ")").

End Classifier.

(** [reasons.append(r)] *)
Definition append {A : Type} (l : list A) (x : A) : list A := l ++ [x].

(** ** The file system as the program observes it

    [descendants root] lists what [root.rglob("*")] yields, each entry by
    its components below [root]; [path_exists], [is_dir] and [is_file] are
    [p.exists()], [p.is_dir()] and [p.is_file()]; [st_size p] is
    [p.stat().st_size]. Each of them can raise: pathlib turns only a few
    errors (a missing entry, a component that is no directory, a bad
    descriptor, a symlink loop) into a negative answer, and lets any other
    [OSError], a permission error for one, through to the caller. *)

Record FileSystem : Type := mkFileSystem {
  descendants : Path -> result (list Path);
  path_exists : Path -> result bool;
  is_dir : Path -> result bool;
  is_file : Path -> result bool;
  st_size : Path -> result Z
}.

Definition rglob (fs : FileSystem) (root : Path) : result (list Path) :=
  match descendants fs root with
  | Ok rels => Ok ((fun rel => root ++ rel) <$> rels)
  | Raise e => Raise e
  end.

(** [reasons] starts empty and each [if] appends to it or leaves it. The
    last statement is the [try] around [p.stat().st_size == 0]: every
    modelled exception derives from [Exception], so its handler catches
    whatever [stat] raises. Only [relative_to] can make the function raise. *)
Definition file_health_checks (fs : FileSystem) (p root : Path)
  : result (list pystr) :=
  let reasons : list pystr := [] in
  rel ← relative_to p root;
  let rel_str := str_path rel in
  let depth := len rel in
  let reasons :=
    if depth >? DEPTH_LIMIT then
      append reasons
        (lit "deep folder nesting (depth=" ++ str_of_int depth
           ++ lit ", limit=" ++ str_of_int DEPTH_LIMIT ++ lit ")")
    else reasons in
  let reasons :=
    if len rel_str >? REL_PATH_LEN_LIMIT then
      append reasons
        (lit "long relative path (" ++ str_of_int (len rel_str)
           ++ lit " chars, limit=" ++ str_of_int REL_PATH_LEN_LIMIT ++ lit ")")
    else reasons in
  let reasons :=
    if len (name p) >? MAX_FILENAME_LEN then
      append reasons
        (lit "very long filename (" ++ str_of_int (len (name p))
           ++ lit " chars, limit=" ++ str_of_int MAX_FILENAME_LEN ++ lit ")")
    else reasons in
  let reasons :=
    if has_non_ascii rel_str then
      append reasons
        (lit "contains non-ASCII characters (possible emojis/unicode)")
    else reasons in
  let reasons :=
    if BAD_CHARS_PATTERN_search (name p) then
      append reasons
        (lit "filename contains characters that can break devices (<>:"
           ++ [34%N] ++ lit "/\|?* or control chars)")
    else reasons in
  let reasons :=
    if negb (bool_decide (name p = strip (name p))) then
      append reasons (lit "filename has leading/trailing spaces")
    else reasons in
  let reasons :=
    if contains (lit "  ") (name p) then
      append reasons (lit "filename contains double spaces")
    else reasons in
  let reasons :=
    match st_size fs p with
    | Ok size =>
        if size =? 0 then append reasons (lit "zero-byte file") else reasons
    | Raise _ =>
        append reasons (lit "could not stat file (permissions/corruption)")
    end in
  mret reasons.

(** ** The scan loop and the deletion list of [main] *)

Record ScanResult : Type := mkScanResult {
  buckets : gmap pystr (list Finding);
  issues : list Finding;
  junk_dirs : list Path
}.

(** The four outcomes the menu offers, and the answer that selects each. *)
Inductive Level : Type := JunkOnly | JunkAndMaybe | JunkMaybeAndUnknown | ReportOnly.

Definition choice_of_level (lv : Level) : pystr :=
  match lv with
  | JunkOnly => lit "1"
  | JunkAndMaybe => lit "2"
  | JunkMaybeAndUnknown => lit "3"
  | ReportOnly => lit "4"
  end.

(** How [main] leaves the menu: the two early returns, or with the
    [delete_list] it has built. *)
Inductive Selection : Type :=
| InvalidChoice
| ReportComplete
| ToDelete (delete_list : list Path).

Definition select_deletions (buckets : gmap pystr (list Finding))
    (choice : pystr) : Selection :=
  if negb (in_set choice [lit "1"; lit "2"; lit "3"; lit "4"]) then InvalidChoice
  else if bool_decide (choice = lit "4") then ReportComplete
  else
    let delete_list : list Path := [] in
    let delete_list := delete_list ++ (path <$> buckets !!! lit "junk") in
    let delete_list :=
      if in_set choice [lit "2"; lit "3"] then
        delete_list ++ (path <$> buckets !!! lit "maybe")
      else delete_list in
    let delete_list :=
      if bool_decide (choice = lit "3") then
        delete_list ++ (path <$> buckets !!! lit "unknown")
      else delete_list in
    ToDelete delete_list.

(** The paths [main] may go on to [unlink]: those of [delete_list]; after
    an early return nothing is deleted. *)
Definition planned_paths (s : Selection) : list Path :=
  match s with
  | ToDelete delete_list => delete_list
  | InvalidChoice | ReportComplete => []
  end.

Definition DeletionPlan (sr : ScanResult) (lv : Level) : list Path :=
  planned_paths (select_deletions (buckets sr) (choice_of_level lv)).

(** The buckets by the names the specification gives them. *)
Inductive Category : Type := Allowed | Junk | Maybe | Unknown.

Definition bucket_of (c : Category) : pystr :=
  match c with
  | Allowed => lit "allowed"
  | Junk => lit "junk"
  | Maybe => lit "maybe"
  | Unknown => lit "unknown"
  end.

Section Scanner.

Variable lower : pystr -> pystr.
Variable fs : FileSystem.
Variable root : Path.

(** First loop: junk directories. [d.is_dir()] is called with no guard,
    so what it raises leaves the loop and [main]. *)
Fixpoint scan_junk_dirs (junk_dirs : list Path) (ds : list Path)
  : result (list Path) :=
  match ds with
  | [] => mret junk_dirs
  | d :: ds' =>
      dir ← is_dir fs d;
      let junk_dirs :=
        if dir && in_set (lower (name d)) JUNK_DIRNAMES then append junk_dirs d
        else junk_dirs in
      scan_junk_dirs junk_dirs ds'
  end.

(** Body of the second loop; [buckets] is a [defaultdict(list)].
    [p.is_file()] is called with no guard either. *)
Definition scan_file (st : gmap pystr (list Finding) * list Finding) (p : Path)
  : result (gmap pystr (list Finding) * list Finding) :=
  let '(buckets, issues) := st in
  file ← is_file fs p;
  if negb file then mret (buckets, issues)
  else
    let '(bucket, reason) := classify_file lower p in
    let buckets :=
      <[bucket := append (buckets !!! bucket) (mkFinding p reason)]> buckets in
    rs ← file_health_checks fs p root;
    mret (buckets, issues ++ (mkFinding p <$> rs)).

Fixpoint scan_files (st : gmap pystr (list Finding) * list Finding)
    (ps : list Path) : result (gmap pystr (list Finding) * list Finding) :=
  match ps with
  | [] => mret st
  | p :: ps' => st' ← scan_file st p; scan_files st' ps'
  end.

Definition scan : result ScanResult :=
  ds ← rglob fs root;
  junk_dirs ← scan_junk_dirs [] ds;
  ps ← rglob fs root;
  st ← scan_files (∅, []) ps;
  mret (mkScanResult st.1 st.2 junk_dirs).

(** Every finding sits in the bucket [classify_file] names for its path,
    and is the finding of a regular file. *)
Definition classified (b : gmap pystr (list Finding)) : Prop :=
  forall (k : pystr) (f : Finding),
    f ∈ b !!! k ->
    (classify_file lower (path f)).1 = k /\ is_file fs (path f) = Ok true.

End Scanner.

(** ** Reporting: [print_samples]

    The printed lines are returned as a list, one string for each call of
    [print]. A path that is not below [root] is printed as it is; how such
    a path reads is left to [str_abs]. *)

(** [items[:limit]] for any integer [limit]: a negative one counts from the
    end. *)
Definition slice_upto {A : Type} (limit : Z) (items : list A) : list A :=
  if limit <? 0 then take (Z.to_nat (Z.max 0 (len items + limit))) items
  else take (Z.to_nat limit) items.

Section Reporting.

Variable str_abs : Path -> pystr.

(** One iteration of the loop: [try: rel = f.path.relative_to(root)],
    [except Exception: rel = f.path], then the line for [rel] and the
    reason. *)
Definition sample_line (root : Path) (f : Finding) : pystr :=
  let rel :=
    match relative_to (path f) root with
    | Ok rel => str_path rel
    | Raise _ => str_abs (path f)
    end in
  lit "  - " ++ rel ++ lit "  [" ++ reason f ++ lit "]".

Definition print_samples (title : pystr) (items : list Finding) (root : Path)
    (limit : Z) : list pystr :=
  let out :=
    [[10%N] ++ title ++ lit " (showing up to " ++ str_of_int limit ++ lit "):"] in
  let out := out ++ (sample_line root <$> slice_upto limit items) in
  if len items >? limit then
    append out (lit "  ...and " ++ str_of_int (len items - limit) ++ lit " more")
  else out.

End Reporting.

(** ** Deleting: the rest of [main] up to the final count

    [unlink w p] is [p.unlink()] in the world [w]: the world afterwards and
    the exception raised, if any. The two prompts are answered by
    [choice_input] and [confirm_input]. *)

Inductive Outcome : Type :=
| InvalidFolder
| InvalidChoiceExit
| ReportOnlyExit
| NothingSelected
| Cancelled
| Deleted (deleted failed : Z) (failures : list (Path * exn)).

Section Executor.

Variable World : Type.
Variable unlink : World -> Path -> World * option exn.

(** [for p in delete_list: try: p.unlink(); deleted += 1]
    [except Exception as e: failed += 1; print(...)]; [failures] collects
    what the handler prints. *)
Fixpoint delete_loop (w : World) (delete_list : list Path) (deleted failed : Z)
    (failures : list (Path * exn)) : World * (Z * Z * list (Path * exn)) :=
  match delete_list with
  | [] => (w, (deleted, failed, failures))
  | p :: rest =>
      match unlink w p with
      | (w', None) => delete_loop w' rest (deleted + 1) failed failures
      | (w', Some e) =>
          delete_loop w' rest deleted (failed + 1) (append failures (p, e))
      end
  end.

(** From the menu to the final count. *)
Definition choose_and_delete (w : World) (buckets : gmap pystr (list Finding))
    (choice_input confirm_input : pystr) : World * Outcome :=
  let choice := strip choice_input in
  match select_deletions buckets choice with
  | InvalidChoice => (w, InvalidChoiceExit)
  | ReportComplete => (w, ReportOnlyExit)
  | ToDelete delete_list =>
      match delete_list with
      | [] => (w, NothingSelected)
      | _ :: _ =>
          let confirm := strip confirm_input in
          if negb (bool_decide (confirm = lit "DELETE")) then (w, Cancelled)
          else
            let '(w', (deleted, failed, failures)) :=
              delete_loop w delete_list 0 0 [] in
            (w', Deleted deleted failed failures)
      end
  end.

(** [main] from the check of the folder to the final count; the summary it
    prints in between changes nothing. The guard is
    [not root.exists() or not root.is_dir()], the second test made only
    when the first does not decide; both calls can raise. *)
Definition main_to_deletion (lower : pystr -> pystr) (fs : FileSystem)
    (root : Path) (w : World) (choice_input confirm_input : pystr)
  : result (World * Outcome) :=
  found ← path_exists fs root;
  if negb found then mret (w, InvalidFolder)
  else
    dir ← is_dir fs root;
    if negb dir then mret (w, InvalidFolder)
    else
      sr ← scan lower fs root;
      mret (choose_and_delete w (buckets sr) choice_input confirm_input).

End Executor.

(** A world that is the list of the files present: [unlink] removes the
    file, or raises when there is none. *)
Definition list_unlink (w : list Path) (p : Path) : list Path * option exn :=
  if bool_decide (p ∈ w) then (List.filter (fun q => negb (bool_decide (q = p))) w, None)
  else (w, Some OSError).

(** * Vocabulary of the properties

    What the specification says in its own terms: substrings, the list of
    health checks it documents, and sample inputs. *)

(** [sub] occurs in [s] as a contiguous run of characters. *)
Definition substring (sub s : pystr) : Prop :=
  exists before after, s = before ++ sub ++ after.

(** The documented checks, one at a time, each with the condition and the
    text of the source. A check looks at the file only, never at what
    another check has found, and yields at most one reason. *)
Definition check_depth (rel : Path) : option pystr :=
  if len rel >? DEPTH_LIMIT then
    Some (lit "deep folder nesting (depth=" ++ str_of_int (len rel)
            ++ lit ", limit=" ++ str_of_int DEPTH_LIMIT ++ lit ")")
  else None.

Definition check_rel_path_len (rel : Path) : option pystr :=
  if len (str_path rel) >? REL_PATH_LEN_LIMIT then
    Some (lit "long relative path (" ++ str_of_int (len (str_path rel))
            ++ lit " chars, limit=" ++ str_of_int REL_PATH_LEN_LIMIT ++ lit ")")
  else None.

Definition check_filename_len (nm : pystr) : option pystr :=
  if len nm >? MAX_FILENAME_LEN then
    Some (lit "very long filename (" ++ str_of_int (len nm)
            ++ lit " chars, limit=" ++ str_of_int MAX_FILENAME_LEN ++ lit ")")
  else None.

Definition check_non_ascii (rel : Path) : option pystr :=
  if has_non_ascii (str_path rel) then
    Some (lit "contains non-ASCII characters (possible emojis/unicode)")
  else None.

Definition check_bad_chars (nm : pystr) : option pystr :=
  if BAD_CHARS_PATTERN_search nm then
    Some (lit "filename contains characters that can break devices (<>:"
            ++ [34%N] ++ lit "/\|?* or control chars)")
  else None.

Definition check_whitespace (nm : pystr) : option pystr :=
  if bool_decide (nm = strip nm) then None
  else Some (lit "filename has leading/trailing spaces").

Definition check_double_space (nm : pystr) : option pystr :=
  if contains (lit "  ") nm then Some (lit "filename contains double spaces")
  else None.

Definition ZERO_BYTE : pystr := lit "zero-byte file".
Definition STAT_FAILED : pystr :=
  lit "could not stat file (permissions/corruption)".

Definition check_size (st : result Z) : option pystr :=
  match st with
  | Ok size => if size =? 0 then Some ZERO_BYTE else None
  | Raise _ => Some STAT_FAILED
  end.

(** The checks in the documented order: depth, relative-path length,
    filename length, non-ASCII, hostile characters, leading/trailing
    whitespace, double spaces, zero-byte/stat. *)
Definition documented_checks (fs : FileSystem) (p rel : Path)
  : list (option pystr) :=
  [check_depth rel; check_rel_path_len rel; check_filename_len (name p);
   check_non_ascii rel; check_bad_chars (name p); check_whitespace (name p);
   check_double_space (name p); check_size (st_size fs p)].

(** The reasons a list of check outcomes reports, in order. *)
Definition reported (outcomes : list (option pystr)) : list pystr :=
  omap id outcomes.

(** The reasons produced by the relative-path length check. *)
Definition is_rel_path_len_reason (r : pystr) : bool :=
  startswith r (lit "long relative path (").

(** ** Sample inputs *)

(** A sample tree: an album with a track, a sidecar and artwork, a file
    that cannot be inspected, an empty file, and a junk directory. *)
Definition sample_root : Path := [lit "Music"].

Definition sample_dirs : list Path :=
  [[lit "Music"; lit "Album"]; [lit "Music"; lit "__MACOSX"]].

Definition sample_fs : FileSystem :=
  mkFileSystem
    (fun _ =>
       Ok [[lit "Album"]; [lit "Album"; lit "Track 01.flac"];
           [lit "Album"; lit "._cover.jpg"]; [lit "Album"; lit "AlbumArt.png"];
           [lit "notes.xyz"]; [lit "empty.mp3"]; [lit "__MACOSX"];
           [lit "a  b .cue "]])
    (fun _ => Ok true)
    (fun p => Ok (bool_decide (p ∈ sample_dirs)))
    (fun p => Ok (negb (bool_decide (p ∈ sample_dirs))))
    (fun p =>
       if bool_decide (p = [lit "Music"; lit "empty.mp3"]) then Ok 0
       else if bool_decide (p = [lit "Music"; lit "notes.xyz"]) then Raise OSError
       else Ok 4096).

(** A name of 176 characters inside "Art" gives a relative path of 180
    characters; one more character gives 181. *)
Definition rel_of_length_180 : Path := [lit "Art"; replicate 176 97%N].
Definition rel_of_length_181 : Path := [lit "Art"; replicate 177 97%N].

(** The result of scanning the sample tree. *)
Definition sample_scan : ScanResult :=
  match scan ascii_lower sample_fs sample_root with
  | Ok sr => sr
  | Raise _ => mkScanResult ∅ [] []
  end.

(** ** Vocabulary of the further properties *)

(** The stem looks like cover art: a preferred name, or "cover" or "folder"
    inside it. *)
Definition cover_like (s : pystr) : bool :=
  in_set s PREFERRED_COVER_NAMES || contains (lit "cover") s
  || contains (lit "folder") s.

(** The first characters of a reason, enough to tell the texts of the
    checks apart. *)
Definition reason_key (r : pystr) : pystr := take 19 r.

(** The three reasons that carry a number, for an observed value [n]. *)
Definition depth_reason (n : Z) : pystr :=
  lit "deep folder nesting (depth=" ++ str_of_int n
    ++ lit ", limit=" ++ str_of_int DEPTH_LIMIT ++ lit ")".

Definition rel_path_len_reason (n : Z) : pystr :=
  lit "long relative path (" ++ str_of_int n
    ++ lit " chars, limit=" ++ str_of_int REL_PATH_LEN_LIMIT ++ lit ")".

Definition filename_len_reason (n : Z) : pystr :=
  lit "very long filename (" ++ str_of_int n
    ++ lit " chars, limit=" ++ str_of_int MAX_FILENAME_LEN ++ lit ")".

Definition NON_ASCII : pystr :=
  lit "contains non-ASCII characters (possible emojis/unicode)".

Definition SURROUNDING_SPACE : pystr := lit "filename has leading/trailing spaces".

Definition is_depth_reason (r : pystr) : bool :=
  startswith r (lit "deep folder nesting (").

Definition is_filename_len_reason (r : pystr) : bool :=
  startswith r (lit "very long filename (").

(** The keys of the eight checks; the last depends on which text the size
    check can give. *)
Definition check_keys (st : result Z) : list pystr :=
  [lit "deep folder nesting"; lit "long relative path "; lit "very long filename ";
   lit "contains non-ASCII "; lit "filename contains c"; lit "filename has leadin";
   lit "filename contains d";
   match check_size st with
   | Some r => reason_key r
   | None => reason_key ZERO_BYTE
   end].

(** The answer is a plain yes. *)
Definition answers_yes (r : result bool) : bool :=
  match r with
  | Ok true => true
  | Ok false | Raise _ => false
  end.

(** The findings of the regular files among [ps] that the classifier puts
    in bucket [k], in the order of [ps]. *)
Definition files_in (lower : pystr -> pystr) (fs : FileSystem) (k : pystr)
    (ps : list Path) : list Finding :=
  (fun p => mkFinding p (classify_file lower p).2)
    <$> List.filter
          (fun p => answers_yes (is_file fs p)
                    && bool_decide ((classify_file lower p).1 = k)) ps.

(** The health findings of one entry below [root]: none unless it is a
    regular file. *)
Definition issues_of (fs : FileSystem) (root rel : Path) : list Finding :=
  if answers_yes (is_file fs (root ++ rel)) then
    mkFinding (root ++ rel)
      <$> reported (documented_checks fs (root ++ rel) rel)
  else [].

(** The sample tree with its root a directory, and a world that holds its
    files except the artwork, which something else has already removed. *)
Definition sample_fs_rooted : FileSystem :=
  mkFileSystem (descendants sample_fs) (path_exists sample_fs)
    (fun p => Ok (bool_decide (p ∈ sample_root :: sample_dirs)))
    (is_file sample_fs) (st_size sample_fs).

(** The sample tree when the album folder cannot be searched: asking
    whether an entry inside it is a directory or a file raises. *)
Definition sample_fs_locked : FileSystem :=
  mkFileSystem (descendants sample_fs) (path_exists sample_fs)
    (fun p =>
       if bool_decide (p = [lit "Music"; lit "Album"; lit "Track 01.flac"])
       then Raise OSError else is_dir sample_fs_rooted p)
    (fun p =>
       if bool_decide (p = [lit "Music"; lit "Album"; lit "Track 01.flac"])
       then Raise OSError else is_file sample_fs p)
    (st_size sample_fs).

(** The paths a deletion list takes from the buckets at each level, read
    off the menu. *)
Definition bucket_paths (b : gmap pystr (list Finding)) (c : Category)
  : list Path :=
  path <$> b !!! bucket_of c.

Definition level_paths (b : gmap pystr (list Finding)) (lv : Level)
  : list Path :=
  match lv with
  | JunkOnly => bucket_paths b Junk
  | JunkAndMaybe => bucket_paths b Junk ++ bucket_paths b Maybe
  | JunkMaybeAndUnknown =>
      bucket_paths b Junk ++ bucket_paths b Maybe ++ bucket_paths b Unknown
  | ReportOnly => []
  end.

Definition sample_world : list Path :=
  [[lit "Music"; lit "Album"; lit "Track 01.flac"];
   [lit "Music"; lit "Album"; lit "._cover.jpg"];
   [lit "Music"; lit "notes.xyz"]; [lit "Music"; lit "empty.mp3"];
   [lit "Music"; lit "a  b .cue "]].

(** * Properties *)

(** ** The string primitives against their Python meaning *)

Lemma in_set_true (x : pystr) (S : list pystr) : in_set x S = true <-> x ∈ S.
Proof. unfold in_set. apply bool_decide_eq_true. Qed.

Lemma in_set_false (x : pystr) (S : list pystr) : in_set x S = false <-> x ∉ S.
Proof. unfold in_set. apply bool_decide_eq_false. Qed.

Lemma startswith_spec (s pre : pystr) :
  startswith s pre = true <-> exists rest, s = pre ++ rest.
Proof.
  revert s. induction pre as [|c pre IH]; intros s; simpl.
  - split; [intros _; exists s; reflexivity | reflexivity].
  - destruct s as [|d s].
    + split; [discriminate | intros [rest H]; discriminate].
    + rewrite andb_true_iff, N.eqb_eq, IH. split.
      * intros [-> [rest ->]]. exists rest. reflexivity.
      * intros [rest H]. injection H as -> ->. split; [reflexivity | eauto].
Qed.

Lemma contains_spec (sub s : pystr) : contains sub s = true <-> substring sub s.
Proof.
  unfold substring. induction s as [|d s IH].
  - cbn [contains]. rewrite orb_false_r, startswith_spec. split.
    + intros [rest H]. exists [], rest. exact H.
    + intros (before & after & H). symmetry in H.
      apply app_eq_nil in H as [-> H]. exists after. symmetry. exact H.
  - cbn [contains]. rewrite orb_true_iff, startswith_spec, IH. split.
    + intros [[rest H] | (before & after & H)].
      * exists [], rest. exact H.
      * exists (d :: before), after. rewrite H. reflexivity.
    + intros (before & after & H). destruct before as [|b before].
      * left. exists after. exact H.
      * right. injection H as -> H. exists before, after. exact H.
Qed.

Lemma rfind_from_absent (c : N) (s : pystr) (i acc : Z) :
  c ∉ s -> rfind_from c s i acc = acc.
Proof.
  revert i acc. induction s as [|d s IH]; intros i acc Hc; [reflexivity|].
  apply not_elem_of_cons in Hc as [Hd Hs]. cbn [rfind_from].
  destruct (N.eqb_spec d c) as [->|_]; [contradiction|]. apply IH, Hs.
Qed.

(** A name that is a dot followed by dot-free text has its only dot at
    index 0, which [suffix] and [stem] do not take for a separator. *)
Lemma suffix_dotfile (p : Path) (rest : pystr) :
  name p = DOT :: rest -> DOT ∉ rest -> suffix p = [] /\ stem p = name p.
Proof.
  intros Hn Hrest. unfold suffix, stem. rewrite Hn. unfold rfind.
  cbn [rfind_from]. rewrite N.eqb_refl, (rfind_from_absent _ _ _ _ Hrest).
  split; reflexivity.
Qed.

Lemma lower_empty (lower : pystr -> pystr) :
  lower_on_ascii lower -> lower [] = [].
Proof. intros H. apply (H []). reflexivity. Qed.

Lemma bucket_of_inj (c c' : Category) : bucket_of c = bucket_of c' -> c = c'.
Proof. destruct c, c'; intros H; try reflexivity; vm_compute in H; discriminate. Qed.

(** The extension tables are pairwise disjoint where the chain needs it. *)
Lemma image_ext_not_audio (e : pystr) :
  in_set e IMAGE_EXTS = true -> in_set e AUDIO_EXTS = false.
Proof.
  rewrite in_set_true. unfold IMAGE_EXTS. intros H.
  repeat (apply elem_of_cons in H as [-> | H]); try (vm_compute; reflexivity).
  apply elem_of_nil in H. contradiction.
Qed.

(** ** File classifier *)

Example classify_sidecar :
  classify_file ascii_lower [lit "Album"; lit "._cover.jpg"]
  = (lit "junk", lit "macOS AppleDouble sidecar (._*)").
Proof. vm_compute. reflexivity. Qed.

Example classify_albumart :
  classify_file ascii_lower [lit "AlbumArt.png"]
  = (lit "maybe",
     lit "image file (artwork) but name not cover/folder/front (album art pickup may suffer)").
Proof. vm_compute. reflexivity. Qed.

Example classify_playlist :
  classify_file ascii_lower [lit "playlist.M3U"]
  = (lit "junk", lit "junk sidecar/playlist/db/log (.m3u)").
Proof. vm_compute. reflexivity. Qed.

Example classify_dotfile :
  classify_file ascii_lower [lit ".flac"]
  = (lit "unknown", lit "unknown file type (no extension)").
Proof. vm_compute. reflexivity. Qed.

Example suffix_examples :
  suffix [lit "a.tar.gz"] = lit ".gz" /\ suffix [lit "track."] = [] /\
  suffix [lit ".nomedia"] = [] /\ stem [lit "Track 01.flac"] = lit "Track 01".
Proof. vm_compute. repeat split. Qed.

(** C3: every path gets exactly one bucket, and that bucket is one of
    allowed, junk, maybe, unknown; [classify_file] is a total function, so
    there is no input on which it fails to answer. *)
Theorem classify_file_one_category (lower : pystr -> pystr) (p : Path) :
  exists! c : Category, (classify_file lower p).1 = bucket_of c.
Proof.
  assert (exists c, (classify_file lower p).1 = bucket_of c) as [c Hc].
  { unfold classify_file.
    repeat match goal with
           | |- context [if ?b then _ else _] => destruct b
           end; cbn [fst];
      first [ by exists Junk | by exists Allowed | by exists Maybe | by exists Unknown ]. }
  exists c. split; [exact Hc|].
  intros c' Hc'. apply bucket_of_inj. congruence.
Qed.

(** C4 as the code has it: a name that begins with the AppleDouble prefix
    is junk whatever its extension, and the reason given is the literal of
    the first branch of [classify_file], which names the AppleDouble
    sidecar. *)
Theorem appledouble_prefix_is_junk (lower : pystr -> pystr) (p : Path) :
  startswith (name p) APPLEDOUBLE_PREFIX = true ->
  classify_file lower p = (bucket_of Junk, lit "macOS AppleDouble sidecar (._*)").
Proof. intros H. unfold classify_file. rewrite H. reflexivity. Qed.

(** "._cover.jpg": the extension is an image extension, and the prefix
    rule still decides. *)
Lemma appledouble_prefix_is_junk_cover :
  in_set (ascii_lower (suffix [lit "._cover.jpg"])) IMAGE_EXTS = true /\
  classify_file ascii_lower [lit "._cover.jpg"]
  = (bucket_of Junk, lit "macOS AppleDouble sidecar (._*)").
Proof.
  split; [vm_compute; reflexivity|].
  apply (appledouble_prefix_is_junk ascii_lower [lit "._cover.jpg"]).
  vm_compute. reflexivity.
Defined.

(** C4 as stated fails on the reason text: for "._cover.jpg" the reason is
    not "macOS sidecar file". *)
Lemma appledouble_reason_differs :
  (classify_file ascii_lower [lit "._cover.jpg"]).1 = bucket_of Junk /\
  (classify_file ascii_lower [lit "._cover.jpg"]).2 <> lit "macOS sidecar file".
Proof. split; [vm_compute; reflexivity | vm_compute; discriminate]. Qed.

(** C5: at the image rule the answer is maybe exactly when the lowercased
    stem is no preferred cover name and has neither "cover" nor "folder"
    inside it, and allowed otherwise; "AlbumArt.png" is maybe, with the
    reason about artwork naming. *)
Theorem image_rule_maybe_iff (lower : pystr -> pystr) :
  lower_on_ascii lower ->
  (forall p : Path,
      startswith (name p) APPLEDOUBLE_PREFIX = false ->
      lower (name p) ∉ JUNK_FILENAMES ->
      lower (suffix p) ∈ IMAGE_EXTS ->
      let unusual :=
        (lower (stem p) ∉ PREFERRED_COVER_NAMES) /\
        ~ substring (lit "cover") (lower (stem p)) /\
        ~ substring (lit "folder") (lower (stem p)) in
      (unusual ->
       classify_file lower p
       = (bucket_of Maybe,
          lit "image file (artwork) but name not cover/folder/front (album art pickup may suffer)")) /\
      (~ unusual ->
       classify_file lower p = (bucket_of Allowed, lit "cover art image")) /\
      ((classify_file lower p).1 = bucket_of Maybe <-> unusual)) /\
  classify_file lower [lit "AlbumArt.png"]
  = (bucket_of Maybe,
     lit "image file (artwork) but name not cover/folder/front (album art pickup may suffer)").
Proof.
  intros Hlower. split.
  - intros p Hpre Hjunk Himg unusual. subst unusual.
    apply in_set_false in Hjunk. apply in_set_true in Himg.
    pose proof (image_ext_not_audio _ Himg) as Haudio.
    unfold classify_file. rewrite Hpre, Hjunk, Haudio, Himg.
    set (b := negb (in_set (lower (stem p)) PREFERRED_COVER_NAMES)
              && negb (contains (lit "cover") (lower (stem p)))
              && negb (contains (lit "folder") (lower (stem p)))).
    assert (Hu : (lower (stem p) ∉ PREFERRED_COVER_NAMES) /\
                 ~ substring (lit "cover") (lower (stem p)) /\
                 ~ substring (lit "folder") (lower (stem p)) <-> b = true).
    { subst b. rewrite !andb_true_iff, !negb_true_iff, in_set_false.
      rewrite <- !contains_spec, <- !not_true_iff_false. tauto. }
    destruct b; cbn [fst].
    + split; [reflexivity|]. split.
      * intros H. exfalso. apply H, Hu. reflexivity.
      * split; [intros _; apply Hu; reflexivity | reflexivity].
    + split; [intros H; apply Hu in H; discriminate|].
      split; [reflexivity|]. split.
      * intros H. vm_compute in H. discriminate.
      * intros H. apply Hu in H. discriminate.
  - unfold classify_file.
    rewrite (Hlower (name [lit "AlbumArt.png"])) by reflexivity.
    rewrite (Hlower (suffix [lit "AlbumArt.png"])) by reflexivity.
    rewrite (Hlower (stem [lit "AlbumArt.png"])) by reflexivity.
    vm_compute. reflexivity.
Qed.

(** The image rule at "front.jpg" (allowed) and at "AlbumArt.png" (maybe),
    by the theorem. *)
Lemma image_rule_maybe_iff_witness :
  classify_file ascii_lower [lit "front.jpg"]
  = (bucket_of Allowed, lit "cover art image") /\
  (classify_file ascii_lower [lit "AlbumArt.png"]).1 = bucket_of Maybe.
Proof.
  assert (Hl : lower_on_ascii ascii_lower) by (intros s _; reflexivity).
  destruct (image_rule_maybe_iff ascii_lower Hl) as [Hrule Hart].
  split.
  - apply (Hrule [lit "front.jpg"]).
    + vm_compute. reflexivity.
    + apply in_set_false. vm_compute. reflexivity.
    + apply in_set_true. vm_compute. reflexivity.
    + intros (H & _). apply in_set_false in H. vm_compute in H. discriminate.
  - rewrite Hart. reflexivity.
Defined.

(** C10: a name made of one leading dot and dot-free text has no
    extension, so none of the four extension tables can match; when neither
    the AppleDouble prefix nor the junk-filename set applies the file is
    unknown, and the reason says there is no extension. *)
Theorem dotfile_has_no_extension (lower : pystr -> pystr) (p : Path)
    (rest : pystr) :
  lower_on_ascii lower ->
  name p = DOT :: rest ->
  DOT ∉ rest ->
  suffix p = [] /\
  ((lower (suffix p) ∉ AUDIO_EXTS) /\ (lower (suffix p) ∉ IMAGE_EXTS) /\
   (lower (suffix p) ∉ JUNK_EXTS) /\
   (lower (suffix p) ∉ POTENTIALLY_PROBLEMATIC_EXTS)) /\
  (startswith (name p) APPLEDOUBLE_PREFIX = false ->
   lower (name p) ∉ JUNK_FILENAMES ->
   classify_file lower p
   = (bucket_of Unknown, lit "unknown file type (no extension)")).
Proof.
  intros Hlower Hn Hrest.
  destruct (suffix_dotfile p rest Hn Hrest) as [Hsuf _].
  pose proof (lower_empty lower Hlower) as He.
  split; [exact Hsuf|]. split.
  - rewrite Hsuf, He, <- !in_set_false. repeat split; vm_compute; reflexivity.
  - intros Hpre Hjunk. apply in_set_false in Hjunk.
    unfold classify_file. rewrite Hpre, Hjunk, Hsuf, He.
    vm_compute. reflexivity.
Qed.

(** ".flac" and ".nomedia" are such names: no extension, bucket unknown. *)
Lemma dotfile_has_no_extension_witness :
  classify_file ascii_lower [lit ".flac"]
  = (bucket_of Unknown, lit "unknown file type (no extension)") /\
  classify_file ascii_lower [lit "Album"; lit ".nomedia"]
  = (bucket_of Unknown, lit "unknown file type (no extension)").
Proof.
  assert (Hl : lower_on_ascii ascii_lower) by (intros s _; reflexivity).
  split.
  - apply (dotfile_has_no_extension ascii_lower [lit ".flac"] (lit "flac") Hl).
    + reflexivity.
    + intros H. vm_compute in H. repeat (apply elem_of_cons in H as [H|H]; [discriminate|]).
      apply elem_of_nil in H. exact H.
    + vm_compute. reflexivity.
    + apply in_set_false. vm_compute. reflexivity.
  - apply (dotfile_has_no_extension ascii_lower [lit "Album"; lit ".nomedia"]
             (lit "nomedia") Hl).
    + reflexivity.
    + intros H. vm_compute in H. repeat (apply elem_of_cons in H as [H|H]; [discriminate|]).
      apply elem_of_nil in H. exact H.
    + vm_compute. reflexivity.
    + apply in_set_false. vm_compute. reflexivity.
Defined.

(** ** Health checker *)

Lemma relative_to_app (root rel : Path) : relative_to (root ++ rel) root = Ok rel.
Proof.
  induction root as [|r root IH]; [reflexivity|].
  cbn [app relative_to]. rewrite bool_decide_eq_true_2 by reflexivity. exact IH.
Qed.

Lemma append_when {A : Type} (b : bool) (l : list A) (x : A) :
  (if b then append l x else l) = l ++ option_list (if b then Some x else None).
Proof. destruct b; unfold append; simpl; [reflexivity | symmetry; apply app_nil_r]. Qed.

Lemma reported_cons (o : option pystr) (os : list (option pystr)) :
  reported (o :: os) = option_list o ++ reported os.
Proof. destruct o; reflexivity. Qed.

Lemma reported_length (os : list (option pystr)) :
  (length (reported os) <= length os)%nat.
Proof.
  induction os as [|o os IH]; [reflexivity|].
  rewrite reported_cons, length_app. destruct o; simpl; lia.
Qed.

Lemma append_size (st : result Z) (l : list pystr) :
  match st with
  | Ok size => if size =? 0 then append l (lit "zero-byte file") else l
  | Raise _ => append l (lit "could not stat file (permissions/corruption)")
  end = l ++ option_list (check_size st).
Proof.
  destruct st as [size|e]; cbn [check_size]; [destruct (size =? 0)|];
    unfold append; simpl; [reflexivity | symmetry; apply app_nil_r | reflexivity].
Qed.

Lemma whitespace_outcome (nm : pystr) :
  (if negb (bool_decide (nm = strip nm))
   then Some (lit "filename has leading/trailing spaces") else None)
  = check_whitespace nm.
Proof. unfold check_whitespace. destruct (bool_decide (nm = strip nm)); reflexivity. Qed.

(** The sequence of guarded appends is the documented list of checks. *)
Lemma file_health_checks_eq (fs : FileSystem) (root rel : Path) :
  file_health_checks fs (root ++ rel) root
  = Ok (reported (documented_checks fs (root ++ rel) rel)).
Proof.
  unfold file_health_checks. rewrite relative_to_app.
  cbn [mbind result_bind mret result_ret]. f_equal.
  set (nm := name (root ++ rel)).
  transitivity
    (((((((([] ++ option_list (check_depth rel))
            ++ option_list (check_rel_path_len rel))
           ++ option_list (check_filename_len nm))
          ++ option_list (check_non_ascii rel))
         ++ option_list (check_bad_chars nm))
        ++ option_list (check_whitespace nm))
       ++ option_list (check_double_space nm))
     ++ option_list (check_size (st_size fs (root ++ rel)))).
  - rewrite append_size, !append_when, whitespace_outcome. reflexivity.
  - unfold documented_checks. fold nm.
    generalize (check_depth rel) (check_rel_path_len rel)
      (check_filename_len nm) (check_non_ascii rel) (check_bad_chars nm)
      (check_whitespace nm) (check_double_space nm)
      (check_size (st_size fs (root ++ rel))).
    intros o1 o2 o3 o4 o5 o6 o7 o8. rewrite !reported_cons.
    change (reported []) with (@nil pystr).
    rewrite app_nil_r, !app_assoc. reflexivity.
Qed.

Lemma reported_elem_of (os : list (option pystr)) (r : pystr) :
  r ∈ reported os <-> Some r ∈ os.
Proof.
  unfold reported. rewrite list_elem_of_omap. split.
  - intros (o & Ho & Heq). simpl in Heq. subst o. exact Ho.
  - intros H. exists (Some r). split; [exact H | reflexivity].
Qed.

Lemma reported_sublist (os : list (option pystr)) :
  sublist (Some <$> reported os) os.
Proof.
  induction os as [|o os IH]; [constructor|].
  rewrite reported_cons. destruct o as [r|]; simpl.
  - apply sublist_skip, IH.
  - apply sublist_cons, IH.
Qed.

(** Several issues on one file, in the order of the checks. *)
Example health_checks_accumulate :
  file_health_checks sample_fs
    [lit "Music"; lit "a"; lit "b"; lit "c"; lit "d"; lit "e"; lit "f";
     lit " g>h  .mp3"] sample_root
  = Ok [lit "deep folder nesting (depth=7, limit=6)";
        lit "filename contains characters that can break devices (<>:"
          ++ [34%N] ++ lit "/\|?* or control chars)";
        lit "filename has leading/trailing spaces";
        lit "filename contains double spaces"].
Proof. vm_compute. reflexivity. Qed.

Example health_checks_outside_root :
  file_health_checks sample_fs [lit "Other"; lit "x.mp3"] sample_root
  = Raise ValueError.
Proof. reflexivity. Qed.

(** C6: every check is evaluated on its own, whatever the earlier ones
    found, so a file collects a reason from each check that matches; and the
    returned list follows the documented order: depth, relative-path length,
    filename length, non-ASCII, hostile characters, leading/trailing
    whitespace, double spaces, zero-byte/stat. *)
Theorem health_checks_all_run_in_order (fs : FileSystem) (root rel : Path) :
  exists reasons : list pystr,
    file_health_checks fs (root ++ rel) root = Ok reasons /\
    reasons = reported (documented_checks fs (root ++ rel) rel) /\
    (forall r, Some r ∈ documented_checks fs (root ++ rel) rel <-> r ∈ reasons) /\
    sublist (Some <$> reasons) (documented_checks fs (root ++ rel) rel).
Proof.
  exists (reported (documented_checks fs (root ++ rel) rel)).
  split; [apply file_health_checks_eq|]. split; [reflexivity|]. split.
  - intros r. symmetry. apply reported_elem_of.
  - apply reported_sublist.
Qed.

Lemma filter_reported_cons (f : pystr -> bool) (o : option pystr)
    (os : list (option pystr)) :
  List.filter f (reported (o :: os))
  = List.filter f (option_list o) ++ List.filter f (reported os).
Proof. rewrite reported_cons. apply List.filter_app. Qed.

Lemma rel_path_len_reasons (fs : FileSystem) (p rel : Path) :
  List.filter is_rel_path_len_reason (reported (documented_checks fs p rel))
  = option_list (check_rel_path_len rel).
Proof.
  unfold documented_checks. rewrite !filter_reported_cons.
  assert (H1 : List.filter is_rel_path_len_reason (option_list (check_depth rel)) = []).
  { unfold check_depth. destruct (len rel >? DEPTH_LIMIT); reflexivity. }
  assert (H2 : List.filter is_rel_path_len_reason (option_list (check_rel_path_len rel))
               = option_list (check_rel_path_len rel)).
  { unfold check_rel_path_len.
    destruct (len (str_path rel) >? REL_PATH_LEN_LIMIT); reflexivity. }
  assert (H3 : List.filter is_rel_path_len_reason
                 (option_list (check_filename_len (name p))) = []).
  { unfold check_filename_len. destruct (len (name p) >? MAX_FILENAME_LEN); reflexivity. }
  assert (H4 : List.filter is_rel_path_len_reason (option_list (check_non_ascii rel)) = []).
  { unfold check_non_ascii. destruct (has_non_ascii (str_path rel)); reflexivity. }
  assert (H5 : List.filter is_rel_path_len_reason
                 (option_list (check_bad_chars (name p))) = []).
  { unfold check_bad_chars. destruct (BAD_CHARS_PATTERN_search (name p)); reflexivity. }
  assert (H6 : List.filter is_rel_path_len_reason
                 (option_list (check_whitespace (name p))) = []).
  { unfold check_whitespace. destruct (bool_decide (name p = strip (name p))); reflexivity. }
  assert (H7 : List.filter is_rel_path_len_reason
                 (option_list (check_double_space (name p))) = []).
  { unfold check_double_space. destruct (contains (lit "  ") (name p)); reflexivity. }
  assert (H8 : List.filter is_rel_path_len_reason
                 (option_list (check_size (st_size fs p))) = []).
  { destruct (st_size fs p) as [size|e]; cbn [check_size];
      [destruct (size =? 0)|]; reflexivity. }
  rewrite H1, H2, H3, H4, H5, H6, H7, H8. simpl. apply app_nil_r.
Qed.

(** C7: a relative path of exactly 180 characters yields no path-length
    reason, and one of 181 characters yields exactly one. *)
Theorem rel_path_len_boundary (fs : FileSystem) (root rel : Path) :
  exists reasons : list pystr,
    file_health_checks fs (root ++ rel) root = Ok reasons /\
    (len (str_path rel) = REL_PATH_LEN_LIMIT ->
     List.filter is_rel_path_len_reason reasons = []) /\
    (len (str_path rel) = REL_PATH_LEN_LIMIT + 1 ->
     List.filter is_rel_path_len_reason reasons
     = [lit "long relative path (181 chars, limit=180)"]).
Proof.
  exists (reported (documented_checks fs (root ++ rel) rel)).
  split; [apply file_health_checks_eq|].
  rewrite rel_path_len_reasons. unfold check_rel_path_len.
  split; intros ->; reflexivity.
Qed.

Lemma rel_path_len_boundary_witness :
  (exists reasons,
      file_health_checks sample_fs (sample_root ++ rel_of_length_180) sample_root
      = Ok reasons /\
      List.filter is_rel_path_len_reason reasons = []) /\
  (exists reasons,
      file_health_checks sample_fs (sample_root ++ rel_of_length_181) sample_root
      = Ok reasons /\
      List.filter is_rel_path_len_reason reasons
      = [lit "long relative path (181 chars, limit=180)"]).
Proof.
  split.
  - destruct (rel_path_len_boundary sample_fs sample_root rel_of_length_180)
      as (reasons & Hr & H180 & _).
    exists reasons. split; [exact Hr|]. apply H180. reflexivity.
  - destruct (rel_path_len_boundary sample_fs sample_root rel_of_length_181)
      as (reasons & Hr & _ & H181).
    exists reasons. split; [exact Hr|]. apply H181. reflexivity.
Defined.

Lemma reported_concat (os : list (option pystr)) :
  reported os = concat (option_list <$> os).
Proof.
  induction os as [|o os IH]; [reflexivity|].
  rewrite reported_cons, IH. reflexivity.
Qed.

Lemma reported_documented_split (fs : FileSystem) (p rel : Path) :
  reported (documented_checks fs p rel)
  = reported (take 7 (documented_checks fs p rel))
      ++ option_list (check_size (st_size fs p)).
Proof.
  change (documented_checks fs p rel)
    with (take 7 (documented_checks fs p rel) ++ [check_size (st_size fs p)]) at 1.
  unfold reported. rewrite omap_app. reflexivity.
Qed.

(** The reasons of the first seven checks are not those of the size check. *)
Lemma earlier_reason_not_size (fs : FileSystem) (p rel : Path) (r : pystr) :
  r ∈ reported (take 7 (documented_checks fs p rel)) ->
  r <> ZERO_BYTE /\ r <> STAT_FAILED.
Proof.
  rewrite reported_elem_of. unfold documented_checks. cbn [take].
  intros H.
  repeat (apply elem_of_cons in H as [H|H]); [..|by apply elem_of_nil in H].
  - unfold check_depth in H. destruct (len rel >? DEPTH_LIMIT); [|discriminate].
    injection H as ->. split; discriminate.
  - unfold check_rel_path_len in H.
    destruct (len (str_path rel) >? REL_PATH_LEN_LIMIT); [|discriminate].
    injection H as ->. split; discriminate.
  - unfold check_filename_len in H.
    destruct (len (name p) >? MAX_FILENAME_LEN); [|discriminate].
    injection H as ->. split; discriminate.
  - unfold check_non_ascii in H.
    destruct (has_non_ascii (str_path rel)); [|discriminate].
    injection H as ->. split; discriminate.
  - unfold check_bad_chars in H.
    destruct (BAD_CHARS_PATTERN_search (name p)); [|discriminate].
    injection H as ->. split; discriminate.
  - unfold check_whitespace in H.
    destruct (bool_decide (name p = strip (name p))); [discriminate|].
    injection H as ->. split; discriminate.
  - unfold check_double_space in H.
    destruct (contains (lit "  ") (name p)); [|discriminate].
    injection H as ->. split; discriminate.
Qed.

Lemma size_reason_last (fs : FileSystem) (p rel : Path) (r : pystr) :
  r = ZERO_BYTE \/ r = STAT_FAILED ->
  r ∈ reported (documented_checks fs p rel) ->
  check_size (st_size fs p) = Some r /\
  last (reported (documented_checks fs p rel)) = Some r.
Proof.
  intros Hr. rewrite reported_documented_split, elem_of_app.
  intros [H|H].
  - apply earlier_reason_not_size in H as [Hz Hs]. destruct Hr; contradiction.
  - destruct (check_size (st_size fs p)) as [r'|]; simpl in H.
    + apply list_elem_of_singleton in H as ->.
      split; [reflexivity | apply last_snoc].
    + by apply elem_of_nil in H.
Qed.

(** C9: at most eight reasons; the list is the concatenation of the eight
    checks' outcomes, each of length at most one; the zero-byte reason and
    the stat-failure reason never occur together, and whichever occurs is
    the last element. *)
Theorem health_checks_at_most_eight (fs : FileSystem) (root rel : Path) :
  exists reasons : list pystr,
    file_health_checks fs (root ++ rel) root = Ok reasons /\
    (length reasons <= 8)%nat /\
    (length (documented_checks fs (root ++ rel) rel) = 8%nat /\
     reasons = concat (option_list <$> documented_checks fs (root ++ rel) rel) /\
     Forall (fun found : list pystr => (length found <= 1)%nat)
       (option_list <$> documented_checks fs (root ++ rel) rel)) /\
    ~ (ZERO_BYTE ∈ reasons /\ STAT_FAILED ∈ reasons) /\
    (ZERO_BYTE ∈ reasons -> last reasons = Some ZERO_BYTE) /\
    (STAT_FAILED ∈ reasons -> last reasons = Some STAT_FAILED).
Proof.
  exists (reported (documented_checks fs (root ++ rel) rel)).
  split; [apply file_health_checks_eq|]. split.
  { apply (reported_length (documented_checks fs (root ++ rel) rel)). }
  split.
  { split; [reflexivity|]. split; [apply reported_concat|].
    apply Forall_fmap, Forall_forall. intros [r|] _; simpl; lia. }
  split.
  { intros [Hz Hs].
    apply size_reason_last in Hz as [Hz _]; [|by left].
    apply size_reason_last in Hs as [Hs _]; [|by right].
    rewrite Hz in Hs. discriminate. }
  split; intros H; eapply size_reason_last; eauto.
Qed.

(** The empty file of the sample tree: the zero-byte reason is reported,
    last, and the stat-failure reason is not. *)
Lemma health_checks_at_most_eight_witness :
  exists reasons : list pystr,
    file_health_checks sample_fs (sample_root ++ [lit "empty.mp3"]) sample_root
    = Ok reasons /\
    last reasons = Some ZERO_BYTE /\ STAT_FAILED ∉ reasons.
Proof.
  destruct (health_checks_at_most_eight sample_fs sample_root [lit "empty.mp3"])
    as (reasons & Hr & _ & _ & Hexcl & Hzero & _).
  assert (Hin : ZERO_BYTE ∈ reasons).
  { vm_compute in Hr. injection Hr as <-. apply list_elem_of_here. }
  exists reasons. split; [exact Hr|]. split; [exact (Hzero Hin)|].
  intros Hs. apply Hexcl. split; assumption.
Defined.

(** ** Scan loop *)

Section ScanFacts.

Variable lower : pystr -> pystr.
Variable fs : FileSystem.
Variable root : Path.

Local Abbreviation state := (gmap pystr (list Finding) * list Finding)%type.
Local Abbreviation walk := (fmap (M:=list) (fun rel : list pystr => root ++ rel)).

Lemma rglob_Ok (ps : list Path) :
  rglob fs root = Ok ps <->
  exists rels, descendants fs root = Ok rels /\ ps = walk rels.
Proof.
  unfold rglob. destruct (descendants fs root) as [rels|e]; split.
  - intros [= <-]. exists rels. split; reflexivity.
  - intros (rels' & [= <-] & ->). reflexivity.
  - discriminate.
  - intros (rels' & H & _). discriminate.
Qed.





(** What a scan that returns went through. *)
Lemma scan_Ok_inv (sr : ScanResult) :
  scan lower fs root = Ok sr ->
  exists (rels : list Path) (found : list Path) (st : state),
    descendants fs root = Ok rels /\
    scan_junk_dirs lower fs [] (walk rels) = Ok found /\
    scan_files lower fs root (∅, []) (walk rels) = Ok st /\
    sr = mkScanResult st.1 st.2 found.
Proof.
  unfold scan, rglob.
  destruct (descendants fs root) as [rels|e]; [|discriminate].
  cbn [mbind result_bind].
  destruct (scan_junk_dirs lower fs [] (walk rels)) as [found|e] eqn:Hfound;
    [|discriminate].
  cbn [mbind result_bind].
  destruct (scan_files lower fs root (∅, []) (walk rels)) as [st|e] eqn:Hst;
    [|discriminate].
  intros [= <-]. exists rels, found, st. repeat split; assumption.
Qed.

Lemma classified_empty : classified lower fs ∅.
Proof.
  intros k f H. rewrite lookup_total_empty in H. by apply elem_of_nil in H.
Qed.

Lemma scan_file_classified (st st' : state) (p : Path) :
  classified lower fs st.1 -> scan_file lower fs root st p = Ok st' ->
  classified lower fs st'.1.
Proof.
  destruct st as [b i]. cbn [fst]. intros Hb. unfold scan_file.
  destruct (is_file fs p) as [[|]|e] eqn:Hfile; cbn [mbind result_bind negb];
    [|by intros [= <-]|discriminate].
  destruct (classify_file lower p) as [bucket reason] eqn:Hc.
  destruct (file_health_checks fs p root) as [rs|e]; [|discriminate].
  intros [= <-]. cbn [fst]. intros k f.
  destruct (decide (bucket = k)) as [<-|Hne].
  - rewrite lookup_total_insert_eq. unfold append.
    rewrite elem_of_app, list_elem_of_singleton. intros [H | ->].
    + apply Hb, H.
    + cbn [path]. rewrite Hc. split; [reflexivity | exact Hfile].
  - rewrite lookup_total_insert_ne by exact Hne. apply Hb.
Qed.

Lemma scan_files_classified (ps : list Path) (st st' : state) :
  classified lower fs st.1 -> scan_files lower fs root st ps = Ok st' ->
  classified lower fs st'.1.
Proof.
  revert st. induction ps as [|p ps IH]; intros st Hb.
  - intros [= <-]. exact Hb.
  - cbn [scan_files].
    destruct (scan_file lower fs root st p) as [st1|e] eqn:H1; [|discriminate].
    cbn [mbind result_bind]. apply IH.
    eapply scan_file_classified; eauto.
Qed.

Lemma scan_classified (sr : ScanResult) :
  scan lower fs root = Ok sr -> classified lower fs (buckets sr).
Proof.
  intros H. apply scan_Ok_inv in H as (rels & found & st & _ & _ & H & ->).
  cbn [buckets].
  eapply scan_files_classified; [|exact H]. apply classified_empty.
Qed.






End ScanFacts.

(** ** Deletion plan *)

Lemma DeletionPlan_JunkOnly (sr : ScanResult) :
  DeletionPlan sr JunkOnly = path <$> buckets sr !!! bucket_of Junk.
Proof. reflexivity. Qed.

Lemma DeletionPlan_JunkAndMaybe (sr : ScanResult) :
  DeletionPlan sr JunkAndMaybe
  = (path <$> buckets sr !!! bucket_of Junk)
      ++ (path <$> buckets sr !!! bucket_of Maybe).
Proof. reflexivity. Qed.

Lemma DeletionPlan_JunkMaybeAndUnknown (sr : ScanResult) :
  DeletionPlan sr JunkMaybeAndUnknown
  = ((path <$> buckets sr !!! bucket_of Junk)
       ++ (path <$> buckets sr !!! bucket_of Maybe))
      ++ (path <$> buckets sr !!! bucket_of Unknown).
Proof. reflexivity. Qed.

Lemma DeletionPlan_ReportOnly (sr : ScanResult) : DeletionPlan sr ReportOnly = [].
Proof. reflexivity. Qed.

(** C1: the plan grows with the level, and the report-only level deletes
    nothing. *)
Theorem deletion_plan_monotone (sr : ScanResult) :
  DeletionPlan sr JunkOnly ⊆ DeletionPlan sr JunkAndMaybe /\
  DeletionPlan sr JunkAndMaybe ⊆ DeletionPlan sr JunkMaybeAndUnknown /\
  DeletionPlan sr ReportOnly = [] /\
  select_deletions (buckets sr) (choice_of_level ReportOnly) = ReportComplete.
Proof.
  rewrite DeletionPlan_JunkOnly, DeletionPlan_JunkAndMaybe,
    DeletionPlan_JunkMaybeAndUnknown, DeletionPlan_ReportOnly.
  split; [|split; [|split; reflexivity]].
  - intros p Hp. apply elem_of_app. left. exact Hp.
  - intros p Hp. apply elem_of_app. left. exact Hp.
Qed.

Lemma DeletionPlan_elem_of (sr : ScanResult) (lv : Level) (p : Path) :
  p ∈ DeletionPlan sr lv ->
  exists (c : Category) (f : Finding),
    c <> Allowed /\ f ∈ buckets sr !!! bucket_of c /\ path f = p.
Proof.
  destruct lv.
  - rewrite DeletionPlan_JunkOnly, list_elem_of_fmap.
    intros (f & -> & Hf). exists Junk, f. done.
  - rewrite DeletionPlan_JunkAndMaybe, elem_of_app, !list_elem_of_fmap.
    intros [(f & -> & Hf) | (f & -> & Hf)];
      [exists Junk, f | exists Maybe, f]; done.
  - rewrite DeletionPlan_JunkMaybeAndUnknown, !elem_of_app, !list_elem_of_fmap.
    intros [[(f & -> & Hf) | (f & -> & Hf)] | (f & -> & Hf)];
      [exists Junk, f | exists Maybe, f | exists Unknown, f]; done.
  - rewrite DeletionPlan_ReportOnly. intros H. by apply elem_of_nil in H.
Qed.

(** C2: at every level a planned path is the path of a finding in the junk,
    maybe or unknown bucket, so a path found in none of these (one that is
    only among the allowed files or the health issues) is never planned, and
    the health issues have no influence on the plan; after a scan, a planned
    path is one the classifier did not put in the allowed bucket. *)
Theorem deletion_plan_by_category_only :
  (forall (sr : ScanResult) (lv : Level) (p : Path),
      p ∈ DeletionPlan sr lv ->
      exists (c : Category) (f : Finding),
        c <> Allowed /\ f ∈ buckets sr !!! bucket_of c /\ path f = p) /\
  (forall (sr : ScanResult) (lv : Level) (p : Path),
      (forall (c : Category) (f : Finding),
          c <> Allowed -> f ∈ buckets sr !!! bucket_of c -> path f <> p) ->
      p ∉ DeletionPlan sr lv) /\
  (forall (sr : ScanResult) (lv : Level) (other_issues : list Finding),
      DeletionPlan (mkScanResult (buckets sr) other_issues (junk_dirs sr)) lv
      = DeletionPlan sr lv) /\
  (forall (lower : pystr -> pystr) (fs : FileSystem) (root : Path)
          (sr : ScanResult) (lv : Level) (p : Path),
      scan lower fs root = Ok sr ->
      p ∈ DeletionPlan sr lv ->
      (classify_file lower p).1 <> bucket_of Allowed /\
      exists c : Category,
        c <> Allowed /\ (classify_file lower p).1 = bucket_of c).
Proof.
  split; [exact DeletionPlan_elem_of|]. split; [|split].
  - intros sr lv p Hnone Hp.
    apply DeletionPlan_elem_of in Hp as (c & f & Hc & Hf & Hpath).
    exact (Hnone c f Hc Hf Hpath).
  - reflexivity.
  - intros lower fs root sr lv p Hscan Hp.
    apply DeletionPlan_elem_of in Hp as (c & f & Hc & Hf & <-).
    apply (scan_classified lower fs root sr Hscan) in Hf as [Hk _].
    split; [|exists c; split; [exact Hc | exact Hk]].
    rewrite Hk. intros Heq. apply bucket_of_inj in Heq. contradiction.
Qed.

Lemma sample_scan_eq : scan ascii_lower sample_fs sample_root = Ok sample_scan.
Proof. vm_compute. reflexivity. Qed.

Example sample_plans :
  DeletionPlan sample_scan JunkOnly
  = [[lit "Music"; lit "Album"; lit "._cover.jpg"]] /\
  DeletionPlan sample_scan JunkAndMaybe
  = [[lit "Music"; lit "Album"; lit "._cover.jpg"];
     [lit "Music"; lit "Album"; lit "AlbumArt.png"]] /\
  DeletionPlan sample_scan JunkMaybeAndUnknown
  = [[lit "Music"; lit "Album"; lit "._cover.jpg"];
     [lit "Music"; lit "Album"; lit "AlbumArt.png"];
     [lit "Music"; lit "notes.xyz"]; [lit "Music"; lit "a  b .cue "]] /\
  junk_dirs sample_scan = [[lit "Music"; lit "__MACOSX"]].
Proof. vm_compute. repeat split. Qed.

(** On the sample tree: the sidecar is planned at the lowest level and is
    not an allowed file; the track, an allowed file, and the empty audio
    file, which has a health issue, are planned at no level. *)
Lemma deletion_plan_by_category_only_witness :
  (classify_file ascii_lower [lit "Music"; lit "Album"; lit "._cover.jpg"]).1
  <> bucket_of Allowed /\
  [lit "Music"; lit "empty.mp3"] ∉ DeletionPlan sample_scan JunkMaybeAndUnknown.
Proof.
  destruct deletion_plan_by_category_only as (_ & Hnone & _ & Hscan).
  split.
  - apply (Hscan ascii_lower sample_fs sample_root sample_scan JunkOnly).
    + exact sample_scan_eq.
    + vm_compute. apply list_elem_of_here.
  - apply Hnone. intros c f Hc Hf.
    destruct c; [contradiction|..]; vm_compute in Hf;
      repeat (apply elem_of_cons in Hf as [-> | Hf]); try discriminate;
      by apply elem_of_nil in Hf.
Defined.

(** ** Stat failures *)

(** The unguarded [is_dir] and [is_file] calls of the two loops are another
    matter than the guarded [stat] of the checker: when one of them raises,
    the scan raises. *)
Example scan_aborts_when_is_dir_raises :
  scan ascii_lower sample_fs_locked sample_root = Raise OSError.
Proof. vm_compute. reflexivity. Qed.




(** * Further properties of the code *)

(** ** Classifier: the whole decision table *)

(** No extension is in two of the four extension tables. *)
Lemma ext_tables_disjoint (e : pystr) :
  (in_set e AUDIO_EXTS = true ->
   in_set e IMAGE_EXTS = false /\ in_set e JUNK_EXTS = false /\
   in_set e POTENTIALLY_PROBLEMATIC_EXTS = false) /\
  (in_set e IMAGE_EXTS = true ->
   in_set e JUNK_EXTS = false /\ in_set e POTENTIALLY_PROBLEMATIC_EXTS = false) /\
  (in_set e JUNK_EXTS = true -> in_set e POTENTIALLY_PROBLEMATIC_EXTS = false).
Proof.
  split; [|split]; rewrite in_set_true; intros H.
  - unfold AUDIO_EXTS in H.
    repeat (apply elem_of_cons in H as [-> | H]);
      try (vm_compute; repeat split; reflexivity).
    by apply elem_of_nil in H.
  - unfold IMAGE_EXTS in H.
    repeat (apply elem_of_cons in H as [-> | H]);
      try (vm_compute; repeat split; reflexivity).
    by apply elem_of_nil in H.
  - unfold JUNK_EXTS in H.
    repeat (apply elem_of_cons in H as [-> | H]);
      try (vm_compute; repeat split; reflexivity).
    by apply elem_of_nil in H.
Qed.

(** The bucket alone, as one chain of tests. *)
Lemma classify_file_bucket (lower : pystr -> pystr) (p : Path) :
  (classify_file lower p).1 =
  if startswith (name p) APPLEDOUBLE_PREFIX then bucket_of Junk
  else if in_set (lower (name p)) JUNK_FILENAMES then bucket_of Junk
  else if in_set (lower (suffix p)) AUDIO_EXTS then bucket_of Allowed
  else if in_set (lower (suffix p)) IMAGE_EXTS then
    if cover_like (lower (stem p)) then bucket_of Allowed else bucket_of Maybe
  else if in_set (lower (suffix p)) JUNK_EXTS then bucket_of Junk
  else if in_set (lower (suffix p)) POTENTIALLY_PROBLEMATIC_EXTS then bucket_of Maybe
  else bucket_of Unknown.
Proof.
  unfold classify_file, cover_like.
  destruct (startswith (name p) APPLEDOUBLE_PREFIX); [reflexivity|].
  destruct (in_set (lower (name p)) JUNK_FILENAMES); [reflexivity|].
  destruct (in_set (lower (suffix p)) AUDIO_EXTS); [reflexivity|].
  destruct (in_set (lower (suffix p)) IMAGE_EXTS).
  - destruct (in_set (lower (stem p)) PREFERRED_COVER_NAMES),
      (contains (lit "cover") (lower (stem p))),
      (contains (lit "folder") (lower (stem p))); reflexivity.
  - destruct (in_set (lower (suffix p)) JUNK_EXTS); [reflexivity|].
    destruct (in_set (lower (suffix p)) POTENTIALLY_PROBLEMATIC_EXTS); reflexivity.
Qed.

Lemma bucket_of_neq (c c' : Category) : c <> c' -> bucket_of c <> bucket_of c'.
Proof. intros Hne Heq. apply Hne, bucket_of_inj, Heq. Qed.

(** Decide an equation between two bucket names. *)
Ltac bucket_eq :=
  match goal with
  | |- bucket_of ?c = bucket_of ?c <-> _ => split; [intros _ | reflexivity]
  | |- bucket_of ?c = bucket_of ?c' <-> _ =>
      split; [intros Hb; apply bucket_of_inj in Hb; discriminate | intros Hb]
  end.

(** X1: a file is junk exactly when its name has the AppleDouble prefix, or
    its lowercased name is a junk filename, or its lowercased extension is
    a junk extension; the earlier audio and image rules never take such a
    file away, the tables being disjoint. *)
Theorem junk_iff (lower : pystr -> pystr) (p : Path) :
  (classify_file lower p).1 = bucket_of Junk <->
  startswith (name p) APPLEDOUBLE_PREFIX = true \/
  lower (name p) ∈ JUNK_FILENAMES \/
  lower (suffix p) ∈ JUNK_EXTS.
Proof.
  rewrite classify_file_bucket, <- !in_set_true.
  destruct (ext_tables_disjoint (lower (suffix p))) as (Ha & Hi & _).
  destruct (startswith (name p) APPLEDOUBLE_PREFIX); [bucket_eq; auto|].
  destruct (in_set (lower (name p)) JUNK_FILENAMES); [bucket_eq; auto|].
  destruct (in_set (lower (suffix p)) AUDIO_EXTS).
  { destruct (Ha eq_refl) as (_ & -> & _). bucket_eq.
    destruct Hb as [Hb | [Hb | Hb]]; discriminate. }
  destruct (in_set (lower (suffix p)) IMAGE_EXTS).
  { destruct (Hi eq_refl) as (-> & _).
    destruct (cover_like (lower (stem p))); bucket_eq;
      destruct Hb as [Hb | [Hb | Hb]]; discriminate. }
  destruct (in_set (lower (suffix p)) JUNK_EXTS); [bucket_eq; auto|].
  destruct (in_set (lower (suffix p)) POTENTIALLY_PROBLEMATIC_EXTS); bucket_eq;
    destruct Hb as [Hb | [Hb | Hb]]; discriminate.
Qed.

(** X2: a file is allowed exactly when neither name rule applies and its
    extension is an audio extension, or an image extension with a stem that
    looks like cover art. *)
Theorem allowed_iff (lower : pystr -> pystr) (p : Path) :
  (classify_file lower p).1 = bucket_of Allowed <->
  startswith (name p) APPLEDOUBLE_PREFIX = false /\
  (lower (name p) ∉ JUNK_FILENAMES) /\
  (lower (suffix p) ∈ AUDIO_EXTS \/
   lower (suffix p) ∈ IMAGE_EXTS /\
   (lower (stem p) ∈ PREFERRED_COVER_NAMES \/
    substring (lit "cover") (lower (stem p)) \/
    substring (lit "folder") (lower (stem p)))).
Proof.
  assert (Hcl : lower (stem p) ∈ PREFERRED_COVER_NAMES \/
                substring (lit "cover") (lower (stem p)) \/
                substring (lit "folder") (lower (stem p))
                <-> cover_like (lower (stem p)) = true).
  { unfold cover_like. rewrite !orb_true_iff, in_set_true, !contains_spec. tauto. }
  rewrite Hcl, classify_file_bucket, <- in_set_false, <- !in_set_true.
  destruct (ext_tables_disjoint (lower (suffix p))) as (Ha & Hi & Hj).
  destruct (startswith (name p) APPLEDOUBLE_PREFIX);
    [bucket_eq; destruct Hb; discriminate|].
  destruct (in_set (lower (name p)) JUNK_FILENAMES);
    [bucket_eq; destruct Hb as (_ & ? & _); discriminate|].
  destruct (in_set (lower (suffix p)) AUDIO_EXTS); [bucket_eq; auto|].
  destruct (in_set (lower (suffix p)) IMAGE_EXTS).
  { destruct (cover_like (lower (stem p))); bucket_eq; [auto|].
    destruct Hb as (_ & _ & [Hb | [_ Hb]]); discriminate. }
  destruct (in_set (lower (suffix p)) JUNK_EXTS);
    [bucket_eq; destruct Hb as (_ & _ & [Hb | [Hb _]]); discriminate|].
  destruct (in_set (lower (suffix p)) POTENTIALLY_PROBLEMATIC_EXTS); bucket_eq;
    destruct Hb as (_ & _ & [Hb | [Hb _]]); discriminate.
Qed.

(** X3: a file is unknown exactly when neither name rule applies and its
    lowercased extension is in none of the four tables. *)
Theorem unknown_iff (lower : pystr -> pystr) (p : Path) :
  (classify_file lower p).1 = bucket_of Unknown <->
  startswith (name p) APPLEDOUBLE_PREFIX = false /\
  (lower (name p) ∉ JUNK_FILENAMES) /\
  (lower (suffix p)
   ∉ AUDIO_EXTS ++ IMAGE_EXTS ++ JUNK_EXTS ++ POTENTIALLY_PROBLEMATIC_EXTS).
Proof.
  rewrite !not_elem_of_app, classify_file_bucket, <- !in_set_false.
  destruct (startswith (name p) APPLEDOUBLE_PREFIX);
    [bucket_eq; destruct Hb; discriminate|].
  destruct (in_set (lower (name p)) JUNK_FILENAMES);
    [bucket_eq; destruct Hb as (_ & ? & _); discriminate|].
  destruct (in_set (lower (suffix p)) AUDIO_EXTS);
    [bucket_eq; destruct Hb as (_ & _ & ? & _); discriminate|].
  destruct (in_set (lower (suffix p)) IMAGE_EXTS).
  { destruct (cover_like (lower (stem p))); bucket_eq;
      destruct Hb as (_ & _ & _ & ? & _); discriminate. }
  destruct (in_set (lower (suffix p)) JUNK_EXTS);
    [bucket_eq; destruct Hb as (_ & _ & _ & _ & ? & _); discriminate|].
  destruct (in_set (lower (suffix p)) POTENTIALLY_PROBLEMATIC_EXTS); bucket_eq;
    [destruct Hb as (_ & _ & _ & _ & _ & ?); discriminate | auto 10].
Qed.

(** X4: a file is maybe exactly when neither name rule applies and its
    extension is an image extension with a stem that does not look like
    cover art, or a potentially problematic extension. *)
Theorem maybe_iff (lower : pystr -> pystr) (p : Path) :
  (classify_file lower p).1 = bucket_of Maybe <->
  startswith (name p) APPLEDOUBLE_PREFIX = false /\
  (lower (name p) ∉ JUNK_FILENAMES) /\
  (lower (suffix p) ∈ IMAGE_EXTS /\ cover_like (lower (stem p)) = false \/
   lower (suffix p) ∈ POTENTIALLY_PROBLEMATIC_EXTS).
Proof.
  rewrite classify_file_bucket, <- in_set_false, <- !in_set_true.
  destruct (ext_tables_disjoint (lower (suffix p))) as (Ha & Hi & Hj).
  destruct (startswith (name p) APPLEDOUBLE_PREFIX);
    [bucket_eq; destruct Hb; discriminate|].
  destruct (in_set (lower (name p)) JUNK_FILENAMES);
    [bucket_eq; destruct Hb as (_ & ? & _); discriminate|].
  destruct (in_set (lower (suffix p)) AUDIO_EXTS).
  { destruct (Ha eq_refl) as (-> & _ & ->). bucket_eq.
    destruct Hb as (_ & _ & [[Hb _] | Hb]); discriminate. }
  destruct (in_set (lower (suffix p)) IMAGE_EXTS).
  { destruct (Hi eq_refl) as (_ & ->).
    destruct (cover_like (lower (stem p))); bucket_eq; [|auto].
    destruct Hb as (_ & _ & [[_ Hb] | Hb]); discriminate. }
  destruct (in_set (lower (suffix p)) JUNK_EXTS).
  { rewrite (Hj eq_refl). bucket_eq.
    destruct Hb as (_ & _ & [[Hb _] | Hb]); discriminate. }
  destruct (in_set (lower (suffix p)) POTENTIALLY_PROBLEMATIC_EXTS); bucket_eq;
    [auto | destruct Hb as (_ & _ & [[Hb _] | Hb]); discriminate].
Qed.

(** ** Classifier: only the name counts, and not its case *)

Lemma name_snoc (dir : Path) (nm : pystr) : name (dir ++ [nm]) = nm.
Proof. unfold name. rewrite last_snoc. reflexivity. Qed.

Lemma classify_file_same_name (lower : pystr -> pystr) (p q : Path) :
  name p = name q -> classify_file lower p = classify_file lower q.
Proof. intros H. unfold classify_file, suffix, stem. rewrite H. reflexivity. Qed.

(** X5: the verdict depends on the final component only: the same file name
    gets the same bucket and reason in every folder. *)
Theorem classify_file_ignores_folder (lower : pystr -> pystr) (dir dir' : Path)
    (nm : pystr) :
  classify_file lower (dir ++ [nm]) = classify_file lower (dir' ++ [nm]).
Proof. apply classify_file_same_name. rewrite !name_snoc. reflexivity. Qed.

Lemma ascii_lower_char_eqb (c t : N) :
  ((t <? 65) || (90 <? t) && (t <? 97) || (122 <? t))%N = true ->
  N.eqb (ascii_lower_char c) t = N.eqb c t.
Proof.
  intros Ht. unfold ascii_lower_char.
  destruct ((65 <=? c)%N && (c <=? 90)%N) eqn:Hc; [|reflexivity].
  apply andb_true_iff in Hc as [H1 H2].
  apply N.leb_le in H1, H2.
  rewrite !orb_true_iff, andb_true_iff, !N.ltb_lt in Ht.
  destruct (N.eqb_spec (c + 32) t), (N.eqb_spec c t); try reflexivity; lia.
Qed.

Lemma ascii_lower_idemp (s : pystr) : ascii_lower (ascii_lower s) = ascii_lower s.
Proof.
  unfold ascii_lower. rewrite List.map_map. apply List.map_ext. intros c.
  unfold ascii_lower_char.
  destruct ((65 <=? c)%N && (c <=? 90)%N) eqn:Hc; [|rewrite Hc; reflexivity].
  apply andb_true_iff in Hc as [H1 H2]. apply N.leb_le in H1, H2.
  destruct ((65 <=? c + 32)%N && (c + 32 <=? 90)%N) eqn:Hc'; [|reflexivity].
  apply andb_true_iff in Hc' as [H3 H4]. apply N.leb_le in H3, H4. lia.
Qed.

Lemma startswith_ascii_lower (s : pystr) :
  startswith (ascii_lower s) APPLEDOUBLE_PREFIX = startswith s APPLEDOUBLE_PREFIX.
Proof.
  destruct s as [|a [|b s]]; try reflexivity.
  - change (N.eqb 46 (ascii_lower_char a) && false = N.eqb 46 a && false).
    rewrite !andb_false_r. reflexivity.
  - change (N.eqb 46 (ascii_lower_char a) && (N.eqb 95 (ascii_lower_char b) && true)
            = N.eqb 46 a && (N.eqb 95 b && true)).
    rewrite (N.eqb_sym 46), (N.eqb_sym 95), !ascii_lower_char_eqb by reflexivity.
    rewrite (N.eqb_sym a), (N.eqb_sym b). reflexivity.
Qed.

Lemma rfind_from_ascii_lower (s : pystr) (i acc : Z) :
  rfind_from DOT (ascii_lower s) i acc = rfind_from DOT s i acc.
Proof.
  revert i acc. induction s as [|c s IH]; intros i acc; [reflexivity|].
  cbn [ascii_lower List.map rfind_from].
  rewrite ascii_lower_char_eqb by reflexivity. apply IH.
Qed.

Lemma len_ascii_lower (s : pystr) : len (ascii_lower s) = len s.
Proof. unfold len, ascii_lower. rewrite length_map. reflexivity. Qed.

Lemma suffix_ascii_lower (nm : pystr) :
  suffix [ascii_lower nm] = ascii_lower (suffix [nm]).
Proof.
  unfold suffix. change (name [ascii_lower nm]) with (ascii_lower nm).
  change (name [nm]) with nm. unfold rfind.
  rewrite rfind_from_ascii_lower, len_ascii_lower.
  destruct ((0 <? rfind_from DOT nm 0 (-1))
            && (rfind_from DOT nm 0 (-1) <? len nm - 1)); [|reflexivity].
  unfold slice_from, ascii_lower. apply List.skipn_map.
Qed.

Lemma stem_ascii_lower (nm : pystr) :
  stem [ascii_lower nm] = ascii_lower (stem [nm]).
Proof.
  unfold stem. change (name [ascii_lower nm]) with (ascii_lower nm).
  change (name [nm]) with nm. unfold rfind.
  rewrite rfind_from_ascii_lower, len_ascii_lower.
  destruct ((0 <? rfind_from DOT nm 0 (-1))
            && (rfind_from DOT nm 0 (-1) <? len nm - 1)); [|reflexivity].
  unfold slice_to, ascii_lower. apply List.firstn_map.
Qed.

Lemma is_ascii_Forall (s : pystr) :
  is_ascii s = true <-> Forall (fun c => (c <= 127)%N) s.
Proof.
  unfold is_ascii. rewrite forallb_forall, Forall_forall.
  split; intros H c Hc.
  - apply N.leb_le, H, list_elem_of_In, Hc.
  - apply N.leb_le, H, list_elem_of_In, Hc.
Qed.

Lemma is_ascii_suffix_stem (nm : pystr) :
  is_ascii nm = true -> is_ascii (suffix [nm]) = true /\ is_ascii (stem [nm]) = true.
Proof.
  rewrite !is_ascii_Forall. intros H. unfold suffix, stem.
  change (name [nm]) with nm.
  destruct ((0 <? rfind DOT nm) && (rfind DOT nm <? len nm - 1)).
  - split; [apply Forall_drop, H | apply Forall_take, H].
  - split; [constructor | exact H].
Qed.

(** What the classifier looks at, for a name of 7-bit characters, is
    determined by the lowercased name. *)
Lemma classify_file_bucket_lowered (lower : pystr -> pystr) (dir : Path)
    (nm : pystr) :
  lower_on_ascii lower -> is_ascii nm = true ->
  (classify_file lower (dir ++ [nm])).1
  = (classify_file ascii_lower [ascii_lower nm]).1.
Proof.
  intros Hl Ha.
  rewrite (classify_file_same_name lower (dir ++ [nm]) [nm])
    by (rewrite name_snoc; reflexivity).
  destruct (is_ascii_suffix_stem nm Ha) as [Hs Ht].
  rewrite !classify_file_bucket.
  change (name [nm]) with nm. change (name [ascii_lower nm]) with (ascii_lower nm).
  rewrite (Hl nm Ha), (Hl _ Hs), (Hl _ Ht).
  rewrite startswith_ascii_lower, suffix_ascii_lower, stem_ascii_lower,
    !ascii_lower_idemp.
  reflexivity.
Qed.

(** X6: for names of 7-bit characters the bucket does not depend on case:
    two names that agree once lowercased get the same bucket, wherever the
    files are. *)
Theorem bucket_case_insensitive (lower : pystr -> pystr) (dir dir' : Path)
    (nm nm' : pystr) :
  lower_on_ascii lower ->
  is_ascii nm = true -> is_ascii nm' = true ->
  ascii_lower nm = ascii_lower nm' ->
  (classify_file lower (dir ++ [nm])).1 = (classify_file lower (dir' ++ [nm'])).1.
Proof.
  intros Hl Ha Ha' Heq.
  rewrite !classify_file_bucket_lowered by assumption.
  rewrite Heq. reflexivity.
Qed.

(** "COVER.JPG" in one folder and "cover.jpg" in another. *)
Lemma bucket_case_insensitive_witness :
  (classify_file ascii_lower [lit "A"; lit "COVER.JPG"]).1
  = (classify_file ascii_lower [lit "B"; lit "C"; lit "cover.jpg"]).1.
Proof.
  apply (bucket_case_insensitive ascii_lower [lit "A"] [lit "B"; lit "C"]
           (lit "COVER.JPG") (lit "cover.jpg")).
  - intros s _. reflexivity.
  - reflexivity.
  - reflexivity.
  - reflexivity.
Defined.

(** ** Health checker: when it raises, and when it is silent *)

Lemma relative_to_Ok (p root rel : Path) :
  relative_to p root = Ok rel <-> p = root ++ rel.
Proof.
  split; [|intros ->; apply relative_to_app].
  revert p. induction root as [|r root IH]; intros p; cbn [relative_to].
  - intros [= ->]. reflexivity.
  - destruct p as [|c p]; [discriminate|].
    destruct (bool_decide_reflect (c = r)) as [->|Hne]; [|discriminate].
    intros H. apply IH in H as ->. reflexivity.
Qed.

Lemma relative_to_Raise (p root : Path) (e : exn) :
  relative_to p root = Raise e -> e = ValueError /\ forall rel, p <> root ++ rel.
Proof.
  revert p. induction root as [|r root IH]; intros p; cbn [relative_to].
  - discriminate.
  - destruct p as [|c p].
    + intros [= <-]. split; [reflexivity | intros rel; discriminate].
    + destruct (bool_decide_reflect (c = r)) as [->|Hne].
      * intros H. apply IH in H as [-> H]. split; [reflexivity|].
        intros rel [= Heq]. exact (H rel Heq).
      * intros [= <-]. split; [reflexivity|]. intros rel [= Heq _].
        contradiction.
Qed.

(** X7: the checker raises only for a path that is not below the root, and
    then a [ValueError]; for a path below the root it returns its list, also
    when the file cannot be inspected. *)
Theorem health_checks_raise_only_outside_root (fs : FileSystem) (p root : Path) :
  match file_health_checks fs p root with
  | Ok reasons =>
      exists rel, p = root ++ rel /\
                  reasons = reported (documented_checks fs p rel)
  | Raise e => e = ValueError /\ forall rel, p <> root ++ rel
  end.
Proof.
  destruct (relative_to p root) as [rel|e] eqn:Hrel.
  - apply relative_to_Ok in Hrel as ->.
    rewrite file_health_checks_eq. exists rel. split; reflexivity.
  - unfold file_health_checks. rewrite Hrel. cbn [mbind result_bind].
    apply relative_to_Raise, Hrel.
Qed.

Lemma reported_nil_iff (os : list (option pystr)) :
  reported os = [] <-> Forall (fun o => o = None) os.
Proof.
  induction os as [|o os IH]; [split; [constructor | reflexivity]|].
  rewrite reported_cons, Forall_cons. destruct o as [r|]; simpl.
  - split; [discriminate | intros [H _]; discriminate].
  - rewrite IH. tauto.
Qed.

Lemma gtb_None {A : Type} (a b : Z) (x : A) :
  (if a >? b then Some x else None) = None <-> a <= b.
Proof.
  rewrite Z.gtb_ltb. destruct (Z.ltb_spec b a); split;
    first [discriminate | reflexivity | lia].
Qed.

Lemma if_None {A : Type} (c : bool) (x : A) :
  (if c then Some x else None) = None <-> c = false.
Proof. destruct c; split; first [discriminate | reflexivity]. Qed.

Lemma check_whitespace_None (nm : pystr) :
  check_whitespace nm = None <-> strip nm = nm.
Proof.
  unfold check_whitespace.
  destruct (bool_decide_reflect (nm = strip nm)); split;
    first [discriminate | reflexivity | congruence].
Qed.

Lemma check_size_None (st : result Z) :
  check_size st = None <-> exists size, st = Ok size /\ size <> 0.
Proof.
  destruct st as [size|err]; cbn [check_size].
  - destruct (Z.eqb_spec size 0) as [Hz|Hz]; split.
    + discriminate.
    + intros (sz & [= <-] & Hsz). contradiction.
    + intros _. exists size. split; [reflexivity | exact Hz].
    + reflexivity.
  - split; [discriminate | intros (sz & Hsz & _); discriminate].
Qed.

(** X8: the list of reasons is empty exactly for a file at depth at most 6,
    with a relative path of at most 180 and a name of at most 120
    characters, 7-bit characters only along the relative path, no hostile
    character, no surrounding whitespace and no double space in the name,
    and a size that can be read and is not zero. *)
Theorem no_issue_iff (fs : FileSystem) (root rel : Path) :
  file_health_checks fs (root ++ rel) root = Ok [] <->
  len rel <= DEPTH_LIMIT /\
  len (str_path rel) <= REL_PATH_LEN_LIMIT /\
  len (name (root ++ rel)) <= MAX_FILENAME_LEN /\
  has_non_ascii (str_path rel) = false /\
  BAD_CHARS_PATTERN_search (name (root ++ rel)) = false /\
  strip (name (root ++ rel)) = name (root ++ rel) /\
  contains (lit "  ") (name (root ++ rel)) = false /\
  exists size, st_size fs (root ++ rel) = Ok size /\ size <> 0.
Proof.
  rewrite file_health_checks_eq.
  assert (Hinj : forall l : list pystr, Ok l = Ok [] <-> l = [])
    by (intros l; split; [intros [= ->]; reflexivity | intros ->; reflexivity]).
  rewrite Hinj, reported_nil_iff. unfold documented_checks.
  rewrite !Forall_cons, Forall_nil.
  unfold check_depth, check_rel_path_len, check_filename_len.
  rewrite !gtb_None, check_whitespace_None, check_size_None.
  unfold check_non_ascii, check_bad_chars, check_double_space.
  rewrite !if_None. tauto.
Qed.

(** ** Health checker: what each reason says about the file *)

(** A reason that is the text of one check comes from that check. *)
Ltac origin H :=
  apply reported_elem_of in H; unfold documented_checks in H;
  repeat (apply elem_of_cons in H as [H|H]); [..|by apply elem_of_nil in H];
  unfold check_depth, check_rel_path_len, check_filename_len, check_non_ascii,
    check_bad_chars, check_whitespace, check_double_space, check_size,
    ZERO_BYTE, STAT_FAILED in H;
  repeat match type of H with
         | context [if ?c then _ else _] => destruct c eqn:?
         | context [match ?c with Ok _ => _ | Raise _ => _ end] => destruct c eqn:?
         end;
  try discriminate H.

Ltac filter_one :=
  match goal with
  | |- List.filter _ (option_list ?o) = _ =>
      unfold check_depth, check_rel_path_len, check_filename_len,
        check_non_ascii, check_bad_chars, check_whitespace, check_double_space,
        check_size;
      repeat match goal with
             | |- context [if ?c then _ else _] => destruct c
             | |- context [match ?c with Ok _ => _ | Raise _ => _ end] => destruct c
             end; reflexivity
  end.

Lemma depth_reasons (fs : FileSystem) (p rel : Path) :
  List.filter is_depth_reason (reported (documented_checks fs p rel))
  = option_list (check_depth rel).
Proof.
  unfold documented_checks. rewrite !filter_reported_cons.
  replace (List.filter is_depth_reason (option_list (check_depth rel)))
    with (option_list (check_depth rel)) by (symmetry; filter_one).
  repeat match goal with
         | |- context [List.filter is_depth_reason (option_list ?o)] =>
             replace (List.filter is_depth_reason (option_list o))
               with (@nil pystr) by (symmetry; filter_one)
         end.
  simpl. apply app_nil_r.
Qed.

Lemma filename_len_reasons (fs : FileSystem) (p rel : Path) :
  List.filter is_filename_len_reason (reported (documented_checks fs p rel))
  = option_list (check_filename_len (name p)).
Proof.
  unfold documented_checks. rewrite !filter_reported_cons.
  replace (List.filter is_filename_len_reason
             (option_list (check_filename_len (name p))))
    with (option_list (check_filename_len (name p))) by (symmetry; filter_one).
  repeat match goal with
         | |- context [List.filter is_filename_len_reason (option_list ?o)] =>
             replace (List.filter is_filename_len_reason (option_list o))
               with (@nil pystr) by (symmetry; filter_one)
         end.
  simpl. apply app_nil_r.
Qed.

(** X9: the depth reason and the filename-length reason each appear exactly
    when the observed value is over the limit (6 components, 120
    characters), once, and with the observed value in the text. *)
Theorem depth_and_filename_len_reasons (fs : FileSystem) (root rel : Path) :
  exists reasons : list pystr,
    file_health_checks fs (root ++ rel) root = Ok reasons /\
    List.filter is_depth_reason reasons
    = (if DEPTH_LIMIT <? len rel then [depth_reason (len rel)] else []) /\
    List.filter is_filename_len_reason reasons
    = (if MAX_FILENAME_LEN <? len (name (root ++ rel))
       then [filename_len_reason (len (name (root ++ rel)))] else []).
Proof.
  exists (reported (documented_checks fs (root ++ rel) rel)).
  split; [apply file_health_checks_eq|].
  rewrite depth_reasons, filename_len_reasons.
  unfold check_depth, check_filename_len. rewrite !Z.gtb_ltb.
  split.
  - destruct (DEPTH_LIMIT <? len rel); reflexivity.
  - destruct (MAX_FILENAME_LEN <? len (name (root ++ rel))); reflexivity.
Qed.

Example filename_of_130_characters :
  file_health_checks sample_fs (sample_root ++ [replicate 130 97%N]) sample_root
  = Ok [lit "very long filename (130 chars, limit=120)"].
Proof. vm_compute. reflexivity. Qed.

Lemma has_non_ascii_app (a b : pystr) :
  has_non_ascii (a ++ b) = has_non_ascii a || has_non_ascii b.
Proof. apply existsb_app. Qed.

Lemma has_non_ascii_join (parts : list pystr) :
  has_non_ascii (join (lit "/") parts) = existsb has_non_ascii parts.
Proof.
  induction parts as [|x [|y rest] IH]; [reflexivity | |].
  - simpl. rewrite orb_false_r. reflexivity.
  - change (join (lit "/") (x :: y :: rest))
      with (x ++ lit "/" ++ join (lit "/") (y :: rest)).
    rewrite !has_non_ascii_app, IH. reflexivity.
Qed.

Lemma has_non_ascii_str_path (rel : Path) :
  has_non_ascii (str_path rel) = existsb has_non_ascii rel.
Proof. destruct rel; [reflexivity | apply has_non_ascii_join]. Qed.

(** X10: the non-ASCII reason is reported exactly when some component of
    the path below the root, a folder name or the file name, has a
    character above 127; the root itself is not looked at. *)
Theorem non_ascii_reason_iff (fs : FileSystem) (root rel : Path) :
  exists reasons : list pystr,
    file_health_checks fs (root ++ rel) root = Ok reasons /\
    (NON_ASCII ∈ reasons <->
     exists (part : pystr) (c : N), part ∈ rel /\ c ∈ part /\ (127 < c)%N).
Proof.
  exists (reported (documented_checks fs (root ++ rel) rel)).
  split; [apply file_health_checks_eq|].
  assert (Hc : has_non_ascii (str_path rel) = true <->
               exists (part : pystr) (c : N), part ∈ rel /\ c ∈ part /\ (127 < c)%N).
  { rewrite has_non_ascii_str_path, existsb_exists. split.
    - intros (part & Hpart & Hna). apply existsb_exists in Hna as (c & Hc & Hlt).
      exists part, c. rewrite !list_elem_of_In, <- N.ltb_lt. auto.
    - intros (part & c & Hpart & Hc & Hlt). exists part.
      split; [apply list_elem_of_In, Hpart|]. apply existsb_exists.
      exists c. split; [apply list_elem_of_In, Hc | apply N.ltb_lt, Hlt]. }
  rewrite <- Hc. split.
  - intros H. origin H. reflexivity.
  - intros H. apply reported_elem_of. unfold documented_checks, check_non_ascii.
    rewrite H. do 3 apply list_elem_of_further. apply list_elem_of_here.
Qed.

Lemma lstrip_length (s : pystr) : (length (lstrip s) <= length s)%nat.
Proof.
  induction s as [|c s IH]; [reflexivity|]. cbn [lstrip].
  destruct (isspace c); simpl; lia.
Qed.

Lemma lstrip_id (s : pystr) :
  lstrip s = s <-> forall c, head s = Some c -> isspace c = false.
Proof.
  destruct s as [|c s]; [split; [intros _ c; discriminate | reflexivity]|].
  cbn [lstrip head]. destruct (isspace c) eqn:Hc.
  - split.
    + intros H. pose proof (lstrip_length s) as Hlen. rewrite H in Hlen.
      simpl in Hlen. lia.
    + intros H. specialize (H c eq_refl). congruence.
  - split; [intros _ c' [= <-]; exact Hc | reflexivity].
Qed.

Lemma lstrip_length_id (s : pystr) : length (lstrip s) = length s -> lstrip s = s.
Proof.
  destruct s as [|c s]; [reflexivity|]. cbn [lstrip].
  destruct (isspace c); [|reflexivity].
  intros H. pose proof (lstrip_length s). simpl in H. lia.
Qed.

Lemma head_rev (s : pystr) : head (rev s) = last s.
Proof.
  induction s as [|x s _] using rev_ind; [reflexivity|].
  rewrite rev_app_distr, last_snoc. reflexivity.
Qed.

(** [strip] leaves a string alone exactly when neither its first nor its
    last character is whitespace. *)
Lemma strip_id (s : pystr) :
  strip s = s <->
  (forall c, head s = Some c -> isspace c = false) /\
  (forall c, last s = Some c -> isspace c = false).
Proof.
  unfold strip. rewrite <- lstrip_id, <- head_rev, <- lstrip_id. split.
  - intros H.
    assert (Hlen : length (lstrip (rev (lstrip s))) = length s)
      by (rewrite <- (length_rev (lstrip (rev (lstrip s)))), H; reflexivity).
    pose proof (lstrip_length s) as H1.
    pose proof (lstrip_length (rev (lstrip s))) as H2.
    rewrite length_rev in H2.
    assert (Hs : lstrip s = s) by (apply lstrip_length_id; lia).
    split; [exact Hs|]. rewrite Hs in Hlen.
    apply lstrip_length_id. rewrite length_rev. exact Hlen.
  - intros [-> ->]. apply rev_involutive.
Qed.

(** X11: the reason about leading or trailing spaces is reported exactly
    when the first or the last character of the name is whitespace of any
    kind (a tab or a no-break space as well as a space). *)
Theorem surrounding_space_reason_iff (fs : FileSystem) (root rel : Path) :
  exists reasons : list pystr,
    file_health_checks fs (root ++ rel) root = Ok reasons /\
    (SURROUNDING_SPACE ∈ reasons <->
     (exists c, head (name (root ++ rel)) = Some c /\ isspace c = true) \/
     (exists c, last (name (root ++ rel)) = Some c /\ isspace c = true)).
Proof.
  exists (reported (documented_checks fs (root ++ rel) rel)).
  split; [apply file_health_checks_eq|].
  assert (Hc : check_whitespace (name (root ++ rel)) = Some SURROUNDING_SPACE <->
               (exists c, head (name (root ++ rel)) = Some c /\ isspace c = true) \/
               (exists c, last (name (root ++ rel)) = Some c /\ isspace c = true)).
  { generalize (name (root ++ rel)) as nm. intros nm.
    pose proof (strip_id nm) as Hid. unfold check_whitespace.
    destruct (bool_decide_reflect (nm = strip nm)) as [Heq|Hne].
    - symmetry in Heq. apply Hid in Heq as [Hh Hl]. split; [discriminate|].
      intros [(c & Hc & Hsp) | (c & Hc & Hsp)];
        [rewrite (Hh c Hc) in Hsp | rewrite (Hl c Hc) in Hsp]; discriminate.
    - split; [intros _ | reflexivity].
      destruct (head nm) as [c|] eqn:Hh; [destruct (isspace c) eqn:Hc|].
      + left. eauto.
      + destruct (last nm) as [d|] eqn:Hl; [destruct (isspace d) eqn:Hd|].
        * right. eauto.
        * exfalso. apply Hne. symmetry. apply Hid.
          split; intros x [= <-]; assumption.
        * exfalso. apply Hne. symmetry. apply Hid.
          split; [intros x [= <-]; assumption | intros x; discriminate].
      + exfalso. apply Hne. symmetry. apply Hid.
        destruct nm; [|discriminate]. split; intros x; discriminate. }
  rewrite <- Hc. split.
  - intros H. origin H. unfold check_whitespace. rewrite Heqb. reflexivity.
  - intros H. apply reported_elem_of. unfold documented_checks.
    rewrite H. do 5 apply list_elem_of_further. apply list_elem_of_here.
Qed.

Example name_ending_in_a_tab :
  file_health_checks sample_fs (sample_root ++ [lit "a.mp3" ++ [9%N]]) sample_root
  = Ok [lit "filename contains characters that can break devices (<>:"
          ++ [34%N] ++ lit "/\|?* or control chars)";
        SURROUNDING_SPACE].
Proof. vm_compute. reflexivity. Qed.

Lemma reported_fmap (f : pystr -> pystr) (os : list (option pystr)) :
  fmap (M:=list) f (reported os)
  = reported (fmap (M:=list) (fmap (M:=option) f) os).
Proof.
  induction os as [|o os IH]; [reflexivity|].
  cbn [fmap list_fmap]. rewrite !reported_cons, fmap_app, IH.
  destruct o; reflexivity.
Qed.

Lemma reported_sublist_of (os : list (option pystr)) (ks : list pystr) :
  Forall2 (fun o k => o = None \/ o = Some k) os ks -> sublist (reported os) ks.
Proof.
  induction 1 as [|o k os ks [-> | ->] _ IH]; [constructor| |].
  - rewrite reported_cons. simpl. apply sublist_cons, IH.
  - rewrite reported_cons. simpl. apply sublist_skip, IH.
Qed.

Lemma check_keys_NoDup (st : result Z) : NoDup (check_keys st).
Proof.
  unfold check_keys.
  destruct st as [size|err]; cbn [check_size]; [destruct (size =? 0)|];
    match goal with
    | |- NoDup ?l => apply (bool_decide_unpack (NoDup l)); vm_compute; exact I
    end.
Qed.

(** X12: no reason is reported twice for one file. *)
Theorem health_reasons_NoDup (fs : FileSystem) (root rel : Path) :
  exists reasons : list pystr,
    file_health_checks fs (root ++ rel) root = Ok reasons /\ NoDup reasons.
Proof.
  exists (reported (documented_checks fs (root ++ rel) rel)).
  split; [apply file_health_checks_eq|].
  apply (NoDup_fmap_1 reason_key). rewrite reported_fmap.
  apply (sublist_NoDup _ (check_keys (st_size fs (root ++ rel))));
    [apply check_keys_NoDup|].
  apply reported_sublist_of. unfold documented_checks, check_keys.
  cbn [fmap list_fmap].
  repeat apply List.Forall2_cons; try apply List.Forall2_nil.
  - unfold check_depth. destruct (len rel >? DEPTH_LIMIT); [right | left]; reflexivity.
  - unfold check_rel_path_len.
    destruct (len (str_path rel) >? REL_PATH_LEN_LIMIT); [right | left]; reflexivity.
  - unfold check_filename_len.
    destruct (len (name (root ++ rel)) >? MAX_FILENAME_LEN); [right | left]; reflexivity.
  - unfold check_non_ascii.
    destruct (has_non_ascii (str_path rel)); [right | left]; reflexivity.
  - unfold check_bad_chars.
    destruct (BAD_CHARS_PATTERN_search (name (root ++ rel))); [right | left]; reflexivity.
  - unfold check_whitespace.
    destruct (bool_decide (name (root ++ rel) = strip (name (root ++ rel))));
      [left | right]; reflexivity.
  - unfold check_double_space.
    destruct (contains (lit "  ") (name (root ++ rel))); [right | left]; reflexivity.
  - destruct (check_size (st_size fs (root ++ rel))); [right | left]; reflexivity.
Qed.

(** ** Scan loop: what the buckets and the issue list hold *)

Lemma classify_file_category (lower : pystr -> pystr) (p : Path) :
  exists c : Category, (classify_file lower p).1 = bucket_of c.
Proof.
  rewrite classify_file_bucket.
  repeat match goal with
         | |- context [if ?b then _ else _] => destruct b
         end; eauto.
Qed.

Section ScanContents.

Variable lower : pystr -> pystr.
Variable fs : FileSystem.
Variable root : Path.

Local Abbreviation state := (gmap pystr (list Finding) * list Finding)%type.
Local Abbreviation walk := (fmap (M:=list) (fun rel : list pystr => root ++ rel)).

Lemma files_in_cons (k : pystr) (p : Path) (ps : list Path) :
  files_in lower fs k (p :: ps)
  = (if answers_yes (is_file fs p) && bool_decide ((classify_file lower p).1 = k)
     then [mkFinding p (classify_file lower p).2] else [])
      ++ files_in lower fs k ps.
Proof.
  unfold files_in. cbn [List.filter].
  destruct (answers_yes (is_file fs p)
            && bool_decide ((classify_file lower p).1 = k));
    reflexivity.
Qed.

Lemma scan_file_bucket (st st' : state) (p : Path) (k : pystr) :
  scan_file lower fs root st p = Ok st' ->
  st'.1 !!! k = st.1 !!! k ++ files_in lower fs k [p].
Proof.
  destruct st as [b i]. unfold scan_file. rewrite files_in_cons.
  change (files_in lower fs k []) with (@nil Finding). rewrite app_nil_r.
  destruct (is_file fs p) as [[|]|e];
    cbn [mbind result_bind negb andb answers_yes]; [| |discriminate].
  - destruct (classify_file lower p) as [bucket reason] eqn:Hc.
    destruct (file_health_checks fs p root) as [rs|e]; [|discriminate].
    intros [= <-]. cbn [fst snd].
    destruct (bool_decide_reflect (bucket = k)) as [<-|Hne].
    + rewrite lookup_total_insert_eq. reflexivity.
    + rewrite lookup_total_insert_ne by exact Hne. rewrite app_nil_r. reflexivity.
  - intros [= <-]. cbn [fst]. rewrite app_nil_r. reflexivity.
Qed.

Lemma scan_files_bucket (ps : list Path) (st st' : state) (k : pystr) :
  scan_files lower fs root st ps = Ok st' ->
  st'.1 !!! k = st.1 !!! k ++ files_in lower fs k ps.
Proof.
  revert st. induction ps as [|p ps IH]; intros st.
  - intros [= <-]. symmetry. apply app_nil_r.
  - cbn [scan_files].
    destruct (scan_file lower fs root st p) as [st1|e] eqn:H1; [|discriminate].
    cbn [mbind result_bind]. intros H2.
    rewrite (IH st1 H2), (scan_file_bucket st st1 p k H1), <- app_assoc.
    f_equal. unfold files_in. cbn [List.filter].
    destruct (answers_yes (is_file fs p)
              && bool_decide ((classify_file lower p).1 = k));
      reflexivity.
Qed.

Lemma scan_file_issues_eq (st st' : state) (rel : Path) :
  scan_file lower fs root st (root ++ rel) = Ok st' ->
  st'.2 = st.2 ++ issues_of fs root rel.
Proof.
  destruct st as [b i]. unfold scan_file, issues_of.
  destruct (is_file fs (root ++ rel)) as [[|]|e];
    cbn [mbind result_bind negb answers_yes]; [| |discriminate].
  - destruct (classify_file lower (root ++ rel)) as [bucket reason].
    rewrite file_health_checks_eq. intros [= <-]. reflexivity.
  - intros [= <-]. cbn [snd]. symmetry. apply app_nil_r.
Qed.

Lemma scan_files_issues_eq (rels : list Path) (st st' : state) :
  scan_files lower fs root st (walk rels) = Ok st' ->
  st'.2 = st.2 ++ concat (issues_of fs root <$> rels).
Proof.
  revert st. induction rels as [|rel rels IH]; intros st.
  - intros [= <-]. symmetry. apply app_nil_r.
  - cbn [fmap list_fmap scan_files concat].
    destruct (scan_file lower fs root st (root ++ rel)) as [st1|e] eqn:H1;
      [|discriminate].
    cbn [mbind result_bind]. intros H2.
    rewrite (IH st1 H2), (scan_file_issues_eq st st1 rel H1), app_assoc.
    reflexivity.
Qed.

Lemma scan_buckets_eq (sr : ScanResult) (rels : list Path) (k : pystr) :
  scan lower fs root = Ok sr ->
  descendants fs root = Ok rels ->
  buckets sr !!! k = files_in lower fs k (walk rels).
Proof.
  intros H Hwalk.
  apply scan_Ok_inv in H as (rels' & found & st & Hwalk' & _ & H & ->).
  rewrite Hwalk in Hwalk'. injection Hwalk' as <-. cbn [buckets].
  rewrite (scan_files_bucket _ _ _ k H). cbn [fst].
  rewrite lookup_total_empty. reflexivity.
Qed.

Lemma scan_walked (sr : ScanResult) :
  scan lower fs root = Ok sr -> exists rels, descendants fs root = Ok rels.
Proof.
  intros H. apply scan_Ok_inv in H as (rels & _ & _ & Hwalk & _). eauto.
Qed.

(** X13: when the scan returns, each bucket holds exactly the regular files
    the classifier sends there, once for each time the walk yields them and
    in the order of the walk, each with the classifier's reason; a name
    that is no bucket of the classifier stays empty. *)
Theorem scan_buckets_exact (sr : ScanResult) :
  scan lower fs root = Ok sr ->
  exists rels : list Path,
    descendants fs root = Ok rels /\
    forall k : pystr,
      buckets sr !!! k
      = files_in lower fs k ((fun rel => root ++ rel) <$> rels).
Proof.
  intros Hsr. destruct (scan_walked sr Hsr) as [rels Hwalk].
  exists rels. split; [exact Hwalk|]. intros k.
  apply scan_buckets_eq; assumption.
Qed.

(** X14: when the scan returns, the issue list is the concatenation, in the
    order of the walk, of the health findings of each regular file; entries
    that are not regular files contribute nothing, and the findings of one
    file stay together, in the order of the checks. *)
Theorem scan_issues_exact (sr : ScanResult) :
  scan lower fs root = Ok sr ->
  exists rels : list Path,
    descendants fs root = Ok rels /\
    issues sr = concat (issues_of fs root <$> rels).
Proof.
  intros H.
  apply scan_Ok_inv in H as (rels & found & st & Hwalk & _ & H & ->).
  exists rels. split; [exact Hwalk|]. cbn [issues].
  rewrite (scan_files_issues_eq _ _ _ H). reflexivity.
Qed.

Lemma files_in_four (ps : list Path) :
  (length (files_in lower fs (bucket_of Allowed) ps)
   + length (files_in lower fs (bucket_of Junk) ps)
   + length (files_in lower fs (bucket_of Maybe) ps)
   + length (files_in lower fs (bucket_of Unknown) ps))%nat
  = length (List.filter (fun p => answers_yes (is_file fs p)) ps).
Proof.
  induction ps as [|p ps IH]; [reflexivity|].
  rewrite !files_in_cons, !length_app. cbn [List.filter].
  destruct (classify_file_category lower p) as [c ->].
  destruct (answers_yes (is_file fs p)); cbn [andb]; [|cbn [length]; lia].
  destruct c;
    repeat match goal with
           | |- context [bool_decide (bucket_of ?a = bucket_of ?b)] =>
               first
                 [ rewrite (bool_decide_eq_true_2 (bucket_of a = bucket_of b))
                     by reflexivity
                 | rewrite (bool_decide_eq_false_2 (bucket_of a = bucket_of b))
                     by (apply bucket_of_neq; discriminate) ]
           end; cbn [length]; lia.
Qed.

(** X15: when the scan returns, the four counts of the summary add up to
    the number of regular files the walk yields: every such file is counted
    in exactly one bucket. *)
Theorem scan_counts_add_up (sr : ScanResult) :
  scan lower fs root = Ok sr ->
  exists rels : list Path,
    descendants fs root = Ok rels /\
    (length (buckets sr !!! bucket_of Allowed)
     + length (buckets sr !!! bucket_of Junk)
     + length (buckets sr !!! bucket_of Maybe)
     + length (buckets sr !!! bucket_of Unknown))%nat
    = length (List.filter (fun rel => answers_yes (is_file fs (root ++ rel)))
                rels).
Proof.
  intros Hsr. destruct (scan_walked sr Hsr) as [rels Hwalk].
  exists rels. split; [exact Hwalk|].
  rewrite !(scan_buckets_eq sr rels _ Hsr Hwalk), files_in_four.
  clear. induction rels as [|rel rels IH]; [reflexivity|].
  cbn [fmap list_fmap List.filter].
  destruct (answers_yes (is_file fs (root ++ rel))); cbn [length];
    rewrite IH; reflexivity.
Qed.

End ScanContents.

(** ** Deletion list: the answers that select it, and what it can hold *)

Lemma select_deletions_level (b : gmap pystr (list Finding)) (lv : Level) :
  planned_paths (select_deletions b (choice_of_level lv))
  = DeletionPlan (mkScanResult b [] []) lv.
Proof. reflexivity. Qed.

Lemma select_deletions_spec (b : gmap pystr (list Finding)) (choice : pystr) :
  match select_deletions b choice with
  | InvalidChoice => forall lv, choice <> choice_of_level lv
  | ReportComplete => choice = choice_of_level ReportOnly
  | ToDelete delete_list =>
      exists lv, lv <> ReportOnly /\ choice = choice_of_level lv /\
                 delete_list = DeletionPlan (mkScanResult b [] []) lv
  end.
Proof.
  unfold select_deletions.
  destruct (in_set choice [lit "1"; lit "2"; lit "3"; lit "4"]) eqn:Hin;
    cbn [negb].
  - apply in_set_true in Hin.
    repeat (apply elem_of_cons in Hin as [-> | Hin]);
      [..|by apply elem_of_nil in Hin].
    + exists JunkOnly. repeat split. discriminate.
    + exists JunkAndMaybe. repeat split. discriminate.
    + exists JunkMaybeAndUnknown. repeat split. discriminate.
    + reflexivity.
  - apply in_set_false in Hin. intros lv ->. apply Hin.
    destruct lv; cbn [choice_of_level];
      repeat first [apply list_elem_of_here | apply list_elem_of_further].
Qed.

(** X16: the answer decides alone how [main] leaves the menu: anything but
    the strings 1, 2, 3, 4 is an invalid choice and builds no list, 4 is
    the report-only exit, 1 builds the list of the junk paths, 2 the junk
    paths followed by the maybe paths, and 3 those followed by the unknown
    paths, each bucket in its own order. *)
Theorem select_deletions_cases (b : gmap pystr (list Finding)) (choice : pystr) :
  match select_deletions b choice with
  | InvalidChoice => forall lv, choice <> choice_of_level lv
  | ReportComplete => choice = choice_of_level ReportOnly
  | ToDelete delete_list =>
      exists lv, lv <> ReportOnly /\ choice = choice_of_level lv /\
                 delete_list = level_paths b lv
  end.
Proof.
  pose proof (select_deletions_spec b choice) as H.
  destruct (select_deletions b choice) as [| |l]; [exact H | exact H |].
  destruct H as (lv & Hlv & Hchoice & ->). exists lv.
  split; [exact Hlv|]. split; [exact Hchoice|].
  destruct lv; unfold level_paths, bucket_paths.
  - apply (DeletionPlan_JunkOnly (mkScanResult b [] [])).
  - apply (DeletionPlan_JunkAndMaybe (mkScanResult b [] [])).
  - rewrite app_assoc.
    apply (DeletionPlan_JunkMaybeAndUnknown (mkScanResult b [] [])).
  - contradiction.
Qed.

Lemma planned_paths_elem_of (b : gmap pystr (list Finding)) (choice : pystr)
    (p : Path) :
  p ∈ planned_paths (select_deletions b choice) ->
  exists (c : Category) (f : Finding),
    c <> Allowed /\ f ∈ b !!! bucket_of c /\ path f = p.
Proof.
  pose proof (select_deletions_spec b choice) as H.
  destruct (select_deletions b choice) as [| |l]; cbn [planned_paths];
    try (intros Hp; by apply elem_of_nil in Hp).
  destruct H as (lv & _ & _ & ->).
  apply (DeletionPlan_elem_of (mkScanResult b [] []) lv p).
Qed.

Section PlanContents.

Variable lower : pystr -> pystr.
Variable fs : FileSystem.
Variable root : Path.

Local Abbreviation walk := (fmap (M:=list) (fun rel : list pystr => root ++ rel)).

Lemma answers_yes_true (r : result bool) : answers_yes r = true <-> r = Ok true.
Proof.
  destruct r as [[|]|e]; split; first [reflexivity | discriminate].
Qed.

Lemma files_in_elem_of (k : pystr) (ps : list Path) (f : Finding) :
  f ∈ files_in lower fs k ps <->
  path f ∈ ps /\ is_file fs (path f) = Ok true /\
  classify_file lower (path f) = (k, reason f).
Proof.
  unfold files_in. rewrite list_elem_of_fmap. split.
  - intros (p & -> & Hp). apply list_elem_of_In, filter_In in Hp as [Hp Hc].
    apply andb_true_iff in Hc as [Hfile Hk]. apply bool_decide_eq_true in Hk.
    apply answers_yes_true in Hfile.
    cbn [path reason]. split; [apply list_elem_of_In, Hp|].
    split; [exact Hfile|]. rewrite <- Hk. apply surjective_pairing.
  - intros (Hp & Hfile & Hc). exists (path f). split.
    + rewrite Hc. destruct f; reflexivity.
    + apply list_elem_of_In, filter_In. split; [apply list_elem_of_In, Hp|].
      rewrite Hfile, Hc. apply bool_decide_eq_true_2. reflexivity.
Qed.

Lemma files_in_paths (k : pystr) (ps : list Path) :
  path <$> files_in lower fs k ps
  = List.filter
      (fun p => answers_yes (is_file fs p)
                && bool_decide ((classify_file lower p).1 = k)) ps.
Proof.
  unfold files_in. rewrite <- list_fmap_compose. apply list_fmap_id.
Qed.

Lemma planned_after_scan (sr : ScanResult) (rels : list Path) (lv : Level)
    (p : Path) :
  scan lower fs root = Ok sr ->
  descendants fs root = Ok rels ->
  p ∈ DeletionPlan sr lv ->
  p ∈ walk rels /\ is_file fs p = Ok true /\
  exists c, c <> Allowed /\ (classify_file lower p).1 = bucket_of c.
Proof.
  intros Hsr Hwalk Hp.
  apply DeletionPlan_elem_of in Hp as (c & f & Hc & Hf & <-).
  rewrite (scan_buckets_eq lower fs root sr rels _ Hsr Hwalk) in Hf.
  apply files_in_elem_of in Hf as (Hin & Hfile & Hcl).
  split; [exact Hin|]. split; [exact Hfile|].
  exists c. split; [exact Hc|]. rewrite Hcl. reflexivity.
Qed.

(** X17: when the scan returns, whatever the level, every path of the
    deletion list is one the walk yielded below the root and [is_file]
    answered yes for; a directory, or a path the scan never saw, is not in
    it. *)
Theorem plan_holds_scanned_files (sr : ScanResult) :
  scan lower fs root = Ok sr ->
  exists rels : list Path,
    descendants fs root = Ok rels /\
    forall (lv : Level) (p : Path),
      p ∈ DeletionPlan sr lv ->
      is_file fs p = Ok true /\ exists rel, rel ∈ rels /\ p = root ++ rel.
Proof.
  intros Hsr. destruct (scan_walked lower fs root sr Hsr) as [rels Hwalk].
  exists rels. split; [exact Hwalk|]. intros lv p Hp.
  apply (planned_after_scan sr rels lv p Hsr Hwalk) in Hp as (Hin & Hfile & _).
  split; [exact Hfile|].
  apply list_elem_of_fmap in Hin as (rel & -> & Hrel). eauto.
Qed.

Lemma walk_NoDup (rels : list Path) : NoDup rels -> NoDup (walk rels).
Proof.
  intros H. apply NoDup_fmap_2_strong; [|exact H].
  intros rel rel' _ _ Heq. apply app_inv_head in Heq. exact Heq.
Qed.

Lemma files_in_paths_NoDup (k : pystr) (ps : list Path) :
  NoDup ps -> NoDup (path <$> files_in lower fs k ps).
Proof.
  intros H. rewrite files_in_paths.
  apply NoDup_ListNoDup, List.NoDup_filter, NoDup_ListNoDup, H.
Qed.

Lemma files_in_paths_disjoint (c c' : Category) (ps : list Path) (p : Path) :
  c <> c' ->
  p ∈ path <$> files_in lower fs (bucket_of c) ps ->
  p ∉ path <$> files_in lower fs (bucket_of c') ps.
Proof.
  intros Hne H H'. rewrite files_in_paths in H, H'.
  apply list_elem_of_In, filter_In in H as [_ H].
  apply list_elem_of_In, filter_In in H' as [_ H'].
  apply andb_true_iff in H as [_ H]. apply andb_true_iff in H' as [_ H'].
  apply bool_decide_eq_true in H, H'. rewrite H in H'.
  apply bucket_of_inj in H'. contradiction.
Qed.

(** X18: when the walk yields no entry twice and the scan returns, no path
    is in the deletion list twice, at any level: the program never tries
    to delete the same file a second time. *)
Theorem plan_NoDup (sr : ScanResult) (rels : list Path) :
  descendants fs root = Ok rels ->
  NoDup rels ->
  scan lower fs root = Ok sr ->
  forall lv : Level, NoDup (DeletionPlan sr lv).
Proof.
  intros Hwalk Hnd Hsr lv. apply walk_NoDup in Hnd.
  pose proof (fun k => scan_buckets_eq lower fs root sr rels k Hsr Hwalk) as Hb.
  destruct lv.
  - rewrite DeletionPlan_JunkOnly, Hb. apply files_in_paths_NoDup, Hnd.
  - rewrite DeletionPlan_JunkAndMaybe, !Hb. apply NoDup_app.
    split; [apply files_in_paths_NoDup, Hnd|].
    split; [|apply files_in_paths_NoDup, Hnd].
    intros p. apply files_in_paths_disjoint. discriminate.
  - rewrite DeletionPlan_JunkMaybeAndUnknown, !Hb. apply NoDup_app.
    split; [apply NoDup_app|].
    + split; [apply files_in_paths_NoDup, Hnd|].
      split; [|apply files_in_paths_NoDup, Hnd].
      intros p. apply files_in_paths_disjoint. discriminate.
    + split; [|apply files_in_paths_NoDup, Hnd].
      intros p Hp. apply elem_of_app in Hp as [Hp | Hp];
        revert Hp; apply files_in_paths_disjoint; discriminate.
  - rewrite DeletionPlan_ReportOnly. constructor.
Qed.

End PlanContents.

(** The sample tree lists no entry twice, so its most aggressive list has
    no path twice. *)
Lemma plan_NoDup_witness :
  NoDup (DeletionPlan sample_scan JunkMaybeAndUnknown).
Proof.
  apply (plan_NoDup ascii_lower sample_fs sample_root sample_scan _ eq_refl).
  - match goal with
    | |- NoDup ?l => apply (bool_decide_unpack (NoDup l)); vm_compute; exact I
    end.
  - exact sample_scan_eq.
Defined.

(** The buckets, the issues, the counts and the deletion lists of the
    sample tree, by the theorems. *)
Lemma scan_buckets_exact_witness :
  buckets sample_scan !!! bucket_of Junk
  = [mkFinding [lit "Music"; lit "Album"; lit "._cover.jpg"]
       (lit "macOS AppleDouble sidecar (._*)")].
Proof.
  destruct (scan_buckets_exact ascii_lower sample_fs sample_root sample_scan
              sample_scan_eq) as (rels & Hwalk & Hb).
  rewrite Hb. injection Hwalk as <-. vm_compute. reflexivity.
Defined.

Lemma scan_issues_exact_witness :
  issues sample_scan
  = [mkFinding [lit "Music"; lit "notes.xyz"] STAT_FAILED;
     mkFinding [lit "Music"; lit "empty.mp3"] ZERO_BYTE;
     mkFinding [lit "Music"; lit "a  b .cue "] SURROUNDING_SPACE;
     mkFinding [lit "Music"; lit "a  b .cue "]
       (lit "filename contains double spaces")].
Proof.
  destruct (scan_issues_exact ascii_lower sample_fs sample_root sample_scan
              sample_scan_eq) as (rels & Hwalk & ->).
  injection Hwalk as <-. vm_compute. reflexivity.
Defined.

Lemma scan_counts_add_up_witness :
  (length (buckets sample_scan !!! bucket_of Allowed)
   + length (buckets sample_scan !!! bucket_of Junk)
   + length (buckets sample_scan !!! bucket_of Maybe)
   + length (buckets sample_scan !!! bucket_of Unknown))%nat
  = 6%nat.
Proof.
  destruct (scan_counts_add_up ascii_lower sample_fs sample_root sample_scan
              sample_scan_eq) as (rels & Hwalk & ->).
  injection Hwalk as <-. vm_compute. reflexivity.
Defined.

Lemma plan_holds_scanned_files_witness :
  is_file sample_fs [lit "Music"; lit "Album"; lit "._cover.jpg"] = Ok true.
Proof.
  destruct (plan_holds_scanned_files ascii_lower sample_fs sample_root
              sample_scan sample_scan_eq) as (rels & _ & Hplan).
  apply (Hplan JunkOnly). vm_compute. apply list_elem_of_here.
Defined.

(** ** Deleting *)

Section ExecutorFacts.

Variable World : Type.
Variable unlink : World -> Path -> World * option exn.

(** The world after [unlink] has been tried on each path in turn. *)
Local Abbreviation attempts :=
  (List.fold_left (fun (w : World) (p : Path) => (unlink w p).1)).

Lemma delete_loop_acc (l : list Path) (w : World) (d f : Z)
    (fl : list (Path * exn)) :
  exists (d' f' : Z) (extra : list (Path * exn)),
    delete_loop World unlink w l d f fl
    = (attempts l w, (d + d', f + f', fl ++ extra)) /\
    0 <= d' /\ 0 <= f' /\ d' + f' = len l /\ f' = len extra /\
    sublist (extra.*1) l.
Proof.
  revert w d f fl. induction l as [|p l IH]; intros w d f fl.
  - exists 0, 0, []. cbn [delete_loop List.fold_left].
    rewrite !Z.add_0_r, app_nil_r. repeat split; reflexivity.
  - cbn [delete_loop List.fold_left].
    destruct (unlink w p) as [w1 [e|]] eqn:Hu; cbn [fst].
    + destruct (IH w1 d (f + 1) (append fl (p, e)))
        as (d' & f' & extra & -> & Hd & Hf & Hsum & Hlen & Hsub).
      exists d', (1 + f'), ((p, e) :: extra). unfold append, len in *.
      rewrite <- app_assoc. cbn [app length fmap list_fmap fst].
      repeat split; try lia.
      * f_equal. f_equal. f_equal. lia.
      * apply sublist_skip, Hsub.
    + destruct (IH w1 (d + 1) f fl)
        as (d' & f' & extra & -> & Hd & Hf & Hsum & Hlen & Hsub).
      exists (1 + d'), f', extra. unfold len in *. cbn [length].
      repeat split; try lia.
      * f_equal. f_equal. f_equal. lia.
      * apply sublist_cons, Hsub.
Qed.

Lemma delete_loop_spec (w : World) (delete_list : list Path) :
  let '(w', (deleted, failed, failures)) :=
    delete_loop World unlink w delete_list 0 0 [] in
  w' = attempts delete_list w /\
  0 <= deleted /\ 0 <= failed /\ deleted + failed = len delete_list /\
  failed = len failures /\ sublist (failures.*1) delete_list.
Proof.
  destruct (delete_loop_acc delete_list w 0 0 [])
    as (d' & f' & extra & -> & Hd & Hf & Hsum & Hlen & Hsub).
  cbn [app]. rewrite !Z.add_0_l. repeat split; assumption.
Qed.

(** X19: the deletion loop tries every path of the list once, in order, a
    failure never stopping it; the two counts are not negative and add up
    to the length of the list, and the failures reported are as many as
    [failed], for paths of the list in its order. *)
Theorem delete_loop_counts (w : World) (delete_list : list Path) :
  let '(w', (deleted, failed, failures)) :=
    delete_loop World unlink w delete_list 0 0 [] in
  w' = attempts delete_list w /\
  0 <= deleted /\ 0 <= failed /\ deleted + failed = len delete_list /\
  failed = len failures /\ sublist (failures.*1) delete_list.
Proof. exact (delete_loop_spec w delete_list). Qed.

(** X20: nothing is unlinked unless the stripped answer to the menu is 1, 2
    or 3, the list built for it is not empty, and the stripped answer to
    the confirmation is exactly DELETE; on every other way out the world is
    the one [main] started from. *)
Theorem deletion_needs_confirmation (w : World)
    (b : gmap pystr (list Finding)) (choice_input confirm_input : pystr) :
  let '(w', out) := choose_and_delete World unlink w b choice_input confirm_input in
  match out with
  | Deleted deleted failed failures =>
      (exists lv, lv <> ReportOnly /\ strip choice_input = choice_of_level lv) /\
      strip confirm_input = lit "DELETE" /\
      planned_paths (select_deletions b (strip choice_input)) <> [] /\
      deleted + failed = len (planned_paths (select_deletions b (strip choice_input)))
  | InvalidFolder => False
  | InvalidChoiceExit | ReportOnlyExit | NothingSelected | Cancelled => w' = w
  end.
Proof.
  unfold choose_and_delete.
  pose proof (select_deletions_spec b (strip choice_input)) as Hsel.
  destruct (select_deletions b (strip choice_input)) as [| |l];
    [reflexivity | reflexivity |].
  destruct l as [|p l]; [reflexivity|].
  destruct (bool_decide_reflect (strip confirm_input = lit "DELETE")) as [Hc|Hc];
    cbn [negb]; [|reflexivity].
  pose proof (delete_loop_spec w (p :: l)) as Hloop.
  destruct (delete_loop World unlink w (p :: l) 0 0 []) as [w' [[d f] fl]].
  destruct Hsel as (lv & Hlv & Heq & _).
  destruct Hloop as (_ & _ & _ & Hsum & _).
  split; [eauto|]. split; [exact Hc|]. split; [discriminate | exact Hsum].
Qed.

(** What [unlink] is relied on for: it leaves every other path as it was. *)
Variable present : World -> Path -> Prop.
Hypothesis unlink_elsewhere :
  forall (w : World) (p q : Path),
    q <> p -> (present (unlink w p).1 q <-> present w q).

Lemma attempts_elsewhere (l : list Path) (w : World) (q : Path) :
  q ∉ l -> (present (attempts l w) q <-> present w q).
Proof.
  revert w. induction l as [|p l IH]; intros w Hq; [reflexivity|].
  apply not_elem_of_cons in Hq as [Hne Hq]. cbn [List.fold_left].
  rewrite (IH _ Hq). apply unlink_elsewhere, Hne.
Qed.

Lemma choose_and_delete_elsewhere (w : World) (b : gmap pystr (list Finding))
    (choice_input confirm_input : pystr) (q : Path) :
  q ∉ planned_paths (select_deletions b (strip choice_input)) ->
  present (choose_and_delete World unlink w b choice_input confirm_input).1 q
  <-> present w q.
Proof.
  unfold choose_and_delete.
  destruct (select_deletions b (strip choice_input)) as [| |l];
    [reflexivity | reflexivity |].
  cbn [planned_paths]. intros Hq.
  destruct l as [|p l]; [reflexivity|].
  destruct (negb (bool_decide (strip confirm_input = lit "DELETE")));
    [reflexivity|].
  pose proof (delete_loop_spec w (p :: l)) as Hloop.
  destruct (delete_loop World unlink w (p :: l) 0 0 []) as [w' [[d f] fl]].
  destruct Hloop as (-> & _). cbn [fst]. apply attempts_elsewhere, Hq.
Qed.

(** X21: whatever the answers and whatever fails, a path that is not in
    the list built for the chosen level is left as it was. *)
Theorem deletion_touches_only_the_list (w : World)
    (b : gmap pystr (list Finding)) (choice_input confirm_input : pystr)
    (q : Path) :
  q ∉ planned_paths (select_deletions b (strip choice_input)) ->
  present (choose_and_delete World unlink w b choice_input confirm_input).1 q
  <-> present w q.
Proof. apply choose_and_delete_elsewhere. Qed.

(** X22: a run, from the check of the folder to the final count, that
    returns leaves as it was every path that the classifier calls allowed,
    every path [is_file] does not answer yes for, and every path the walk
    did not yield, whatever the answers to the prompts. *)
Theorem run_spares_allowed_files (lower : pystr -> pystr) (fs : FileSystem)
    (root : Path) (w : World) (choice_input confirm_input : pystr)
    (w' : World) (out : Outcome) :
  main_to_deletion World unlink lower fs root w choice_input confirm_input
  = Ok (w', out) ->
  forall q : Path,
    (classify_file lower q).1 = bucket_of Allowed \/
    is_file fs q <> Ok true \/
    (forall rels, descendants fs root = Ok rels ->
                  q ∉ (fun rel => root ++ rel) <$> rels) ->
    (present w' q <-> present w q).
Proof.
  unfold main_to_deletion.
  destruct (path_exists fs root) as [[|]|e]; cbn [mbind result_bind negb];
    [|intros [= <- <-]; reflexivity|discriminate].
  destruct (is_dir fs root) as [[|]|e]; cbn [mbind result_bind negb];
    [|intros [= <- <-]; reflexivity|discriminate].
  destruct (scan lower fs root) as [sr|e] eqn:Hsr; cbn [mbind result_bind];
    [|discriminate].
  intros [= Hrun] q Hq.
  change w' with (w', out).1. rewrite <- Hrun.
  apply choose_and_delete_elsewhere. intros Hin.
  pose proof (select_deletions_spec (buckets sr) (strip choice_input)) as Hsel.
  destruct (select_deletions (buckets sr) (strip choice_input)) as [| |l];
    cbn [planned_paths] in Hin; try (by apply elem_of_nil in Hin).
  destruct Hsel as (lv & _ & _ & ->).
  destruct (scan_walked lower fs root sr Hsr) as [rels Hwalk].
  destruct (planned_after_scan lower fs root sr rels lv q Hsr Hwalk Hin)
    as (Hrg & Hfile & c & Hc & Hcl).
  destruct Hq as [Hq | [Hq | Hq]].
  - rewrite Hcl in Hq. apply bucket_of_inj in Hq. contradiction.
  - contradiction.
  - exact (Hq rels Hwalk Hrg).
Qed.

End ExecutorFacts.

Lemma list_unlink_elsewhere (w : list Path) (p q : Path) :
  q <> p -> (q ∈ (list_unlink w p).1 <-> q ∈ w).
Proof.
  intros Hne. unfold list_unlink. destruct (bool_decide (p ∈ w)); [|reflexivity].
  cbn [fst]. rewrite !list_elem_of_In, filter_In.
  split; [intros [H _]; exact H|]. intros H. split; [exact H|].
  apply negb_true_iff, bool_decide_eq_false_2, Hne.
Qed.

(** A whole run on the sample tree at the most aggressive level: three
    files go, the artwork that was already gone is counted as a failure,
    and the two audio files stay. *)
Example sample_run :
  main_to_deletion (list Path) list_unlink ascii_lower sample_fs_rooted
    sample_root sample_world (lit " 3") (lit "DELETE ")
  = Ok ([[lit "Music"; lit "Album"; lit "Track 01.flac"];
         [lit "Music"; lit "empty.mp3"]],
        Deleted 3 1 [([lit "Music"; lit "Album"; lit "AlbumArt.png"], OSError)]).
Proof. vm_compute. reflexivity. Qed.

Example sample_run_unconfirmed :
  main_to_deletion (list Path) list_unlink ascii_lower sample_fs_rooted
    sample_root sample_world (lit "3") (lit "delete")
  = Ok (sample_world, Cancelled).
Proof. vm_compute. reflexivity. Qed.

(** At the lowest level on the sample tree the notes file, which is not in
    the list, stays. *)
Lemma deletion_touches_only_the_list_witness :
  [lit "Music"; lit "notes.xyz"]
  ∈ (choose_and_delete (list Path) list_unlink sample_world
       (buckets sample_scan) (lit "1") (lit "DELETE")).1.
Proof.
  apply (deletion_touches_only_the_list (list Path) list_unlink
           (fun w q => q ∈ w) list_unlink_elsewhere).
  - vm_compute. intros H. apply list_elem_of_singleton in H. discriminate.
  - unfold sample_world. do 2 apply list_elem_of_further. apply list_elem_of_here.
Defined.

(** The track of the sample tree survives the most aggressive run. *)
Lemma run_spares_allowed_files_witness :
  [lit "Music"; lit "Album"; lit "Track 01.flac"]
  ∈ [[lit "Music"; lit "Album"; lit "Track 01.flac"];
     [lit "Music"; lit "empty.mp3"]].
Proof.
  apply (run_spares_allowed_files (list Path) list_unlink
           (fun w q => q ∈ w) list_unlink_elsewhere ascii_lower
           sample_fs_rooted sample_root sample_world (lit " 3") (lit "DELETE ")
           _ _ sample_run).
  - left. vm_compute. reflexivity.
  - unfold sample_world. apply list_elem_of_here.
Defined.

(** On the locked tree the run raises while scanning, before the menu. *)
Example sample_run_locked :
  main_to_deletion (list Path) list_unlink ascii_lower sample_fs_locked
    sample_root sample_world (lit "3") (lit "DELETE")
  = Raise OSError.
Proof. vm_compute. reflexivity. Qed.

(** ** Reporting *)

Lemma slice_upto_nonneg {A : Type} (limit : Z) (items : list A) :
  0 <= limit -> slice_upto limit items = take (Z.to_nat limit) items.
Proof.
  intros H. unfold slice_upto. destruct (Z.ltb_spec limit 0); [lia | reflexivity].
Qed.

(** X23: for a limit that is not negative the listing shows every item when
    they are at most [limit], and otherwise the first [limit] of them
    followed by a line whose count is that of the items not shown; a path
    that is not below the root never makes it fail. *)
Theorem print_samples_accounts (str_abs : Path -> pystr) (title : pystr)
    (items : list Finding) (root : Path) (limit : Z) :
  0 <= limit ->
  let header :=
    [10%N] ++ title ++ lit " (showing up to " ++ str_of_int limit ++ lit "):" in
  let shown := take (Z.to_nat limit) items in
  (len items <= limit ->
   print_samples str_abs title items root limit
   = header :: (sample_line str_abs root <$> items)) /\
  (limit < len items ->
   print_samples str_abs title items root limit
   = header :: (sample_line str_abs root <$> shown)
       ++ [lit "  ...and " ++ str_of_int (len items - len shown) ++ lit " more"]
   /\ len shown = limit).
Proof.
  intros Hlimit header shown. subst header shown. unfold print_samples.
  rewrite slice_upto_nonneg by exact Hlimit. rewrite Z.gtb_ltb. split.
  - intros Hle. destruct (Z.ltb_spec limit (len items)); [lia|].
    rewrite take_ge by (unfold len in *; lia). reflexivity.
  - intros Hlt. destruct (Z.ltb_spec limit (len items)); [|lia].
    assert (Hshown : len (take (Z.to_nat limit) items) = limit)
      by (unfold len in *; rewrite length_take; lia).
    rewrite Hshown. split; reflexivity.
Qed.

(** Three junk files with a limit of two, one of them outside the root. *)
Lemma print_samples_accounts_witness :
  print_samples (fun p => lit "/" ++ join (lit "/") p) (lit "Junk files")
    [mkFinding [lit "Music"; lit "a.m3u"] (lit "x");
     mkFinding [lit "Other"; lit "b.m3u"] (lit "y");
     mkFinding [lit "Music"; lit "c.m3u"] (lit "z")] sample_root 2
  = [[10%N] ++ lit "Junk files (showing up to 2):";
     lit "  - a.m3u  [x]"; lit "  - /Other/b.m3u  [y]"; lit "  ...and 1 more"].
Proof.
  destruct (print_samples_accounts (fun p => lit "/" ++ join (lit "/") p)
              (lit "Junk files")
              [mkFinding [lit "Music"; lit "a.m3u"] (lit "x");
               mkFinding [lit "Other"; lit "b.m3u"] (lit "y");
               mkFinding [lit "Music"; lit "c.m3u"] (lit "z")] sample_root 2)
    as [_ Hmore]; [lia|].
  destruct Hmore as [-> _]; [reflexivity|]. vm_compute. reflexivity.
Defined.

(** With a negative limit the slice counts from the end, and the last line
    announces more items than there are. *)
Example print_samples_negative_limit :
  print_samples (fun p => lit "/" ++ join (lit "/") p) (lit "Junk files")
    [mkFinding [lit "Music"; lit "a.m3u"] (lit "x");
     mkFinding [lit "Music"; lit "b.m3u"] (lit "y")] sample_root (-1)
  = [[10%N] ++ lit "Junk files (showing up to -1):";
     lit "  - a.m3u  [x]"; lit "  ...and 3 more"].
Proof. vm_compute. reflexivity. Qed.
